(** * rocker/build/internals.go: the build-orchestration core

    A shallow embedding of the [Builder] methods of
    [src/rocker/build/internals.go] and the properties its specification
    states about them.

    Conventions of the embedding.
    - Go strings are [string]; a Go [error] is its message, [nil] is [None].
    - A Go slice is the list of its elements: the methods of this file
      assign slices and append to them, they do not store into them.
    - A Go [map] is a reference: the maps stored in [docker.Config]
      ([Labels], [Volumes]) live in a heap and the struct holds their
      location, so that a struct copy shares them, as in Go.
    - Everything the builder does to the outside (engine calls, files of the
      context directory, the output stream) is appended to a log; what the
      outside answers is a function of the log so far.
    - Instants and durations are integers counted in seconds. *)

From Stdlib Require Import ZArith Lia Ascii.
From stdpp Require Import gmap strings list pretty.

Set Default Proof Using "Type".


(** ** Errors and results *)

Definition error := string.

Inductive result (A : Type) : Type :=
| Ok (a : A)
| Err (e : error).
Arguments Ok {A} a.
Arguments Err {A} e.

(** ** The heap of map objects *)

Definition loc := nat.

Record Heap := mkHeap {
  labelMaps : list (gmap string string);
  volumeMaps : list (gset string)
}.

(** [make(map[string]string)] followed by stores: a new object at the end
    of the heap. *)
Definition allocLabels (m : gmap string string) (h : Heap) : loc * Heap :=
  (length (labelMaps h), mkHeap (labelMaps h ++ [m]) (volumeMaps h)).

Definition allocVolumes (s : gset string) (h : Heap) : loc * Heap :=
  (length (volumeMaps h), mkHeap (labelMaps h) (volumeMaps h ++ [s])).

Definition storeLabels (l : loc) (m : gmap string string) (h : Heap) : Heap :=
  mkHeap (<[l := m]> (labelMaps h)) (volumeMaps h).

(** ** docker.Config, docker.Image (go-dockerclient) *)

Module docker.

(** The configuration struct as the builder holds it: slices by value,
    maps by reference ([None] is the nil map). *)
Record Config := mkConfig {
  Cmd : list string;
  Entrypoint : list string;
  Env : list string;
  CImage : string;                (* Config.Image *)
  Volumes : option loc;
  Labels : option loc
}.

(** The same configuration with the content of its maps, as it is read
    from or sent to the engine. *)
Record ConfigData := mkConfigData {
  dCmd : list string;
  dEntrypoint : list string;
  dEnv : list string;
  dImage : string;
  dVolumes : option (gset string);
  dLabels : option (gmap string string)
}.

(** [docker.Image], the answer of [InspectImage]. *)
Record Image := mkImage {
  ID : string;
  Parent : string;
  Created : Z;
  ImageConfig : ConfigData;       (* Config *Config *)
  ContainerConfig : ConfigData
}.

(** [docker.APIImages], an entry of [ListImages]. *)
Record APIImages := mkAPIImages {
  apiID : string;
  ParentID : string
}.

Record Container := mkContainer {
  containerID : string            (* Container.ID *)
}.

End docker.

(** Reading a configuration through its references. A reference that is not
    in the heap reads as the nil map; Go has no such reference. *)
Definition readConfig (h : Heap) (c : docker.Config) : docker.ConfigData :=
  docker.mkConfigData (docker.Cmd c) (docker.Entrypoint c) (docker.Env c)
    (docker.CImage c)
    (l ← docker.Volumes c; volumeMaps h !! l)
    (l ← docker.Labels c; labelMaps h !! l).

(** A configuration decoded from an engine answer: its maps are new
    objects. *)
Definition newConfig (d : docker.ConfigData) (h : Heap) : docker.Config * Heap :=
  let '(vol, h1) :=
    match docker.dVolumes d with
    | None => (None, h)
    | Some s => let '(l, h') := allocVolumes s h in (Some l, h')
    end in
  let '(lab, h2) :=
    match docker.dLabels d with
    | None => (None, h1)
    | Some m => let '(l, h') := allocLabels m h1 in (Some l, h')
    end in
  (docker.mkConfig (docker.dCmd d) (docker.dEntrypoint d) (docker.dEnv d)
     (docker.dImage d) vol lab, h2).

(** ** parser.Node, mounts and the builder *)

#[local] Unset Elimination Schemes.
Inductive Node := mkNode {
  Value : string;
  Next : option Node;
  Children : list Node
}.
#[local] Set Elimination Schemes.

Record mount := mkMount {
  src : string;
  dest : string;
  containerID : string
}.

(** The fields of [Builder] that this file reads or writes. [Docker],
    [OutStream], [fdOut] and [isTerminalOut] are the outside: see [Effect]. *)
Record Builder := mkBuilder {
  Config : docker.Config;
  imageID : string;
  dockerfile : Node;
  UtilizeCache : bool;
  cacheBusted : bool;
  gitIgnored : bool;
  mounts : list mount;
  allMounts : list mount;
  exportsContainerID : string;
  Rockerfile : string;
  ContextDir : string;
  Auth : string
}.

Definition set_Config (c : docker.Config) (b : Builder) : Builder :=
  mkBuilder c (imageID b) (dockerfile b) (UtilizeCache b) (cacheBusted b)
    (gitIgnored b) (mounts b) (allMounts b) (exportsContainerID b)
    (Rockerfile b) (ContextDir b) (Auth b).

Definition set_imageID (i : string) (b : Builder) : Builder :=
  mkBuilder (Config b) i (dockerfile b) (UtilizeCache b) (cacheBusted b)
    (gitIgnored b) (mounts b) (allMounts b) (exportsContainerID b)
    (Rockerfile b) (ContextDir b) (Auth b).

Definition set_dockerfile (n : Node) (b : Builder) : Builder :=
  mkBuilder (Config b) (imageID b) n (UtilizeCache b) (cacheBusted b)
    (gitIgnored b) (mounts b) (allMounts b) (exportsContainerID b)
    (Rockerfile b) (ContextDir b) (Auth b).

Definition set_cacheBusted (v : bool) (b : Builder) : Builder :=
  mkBuilder (Config b) (imageID b) (dockerfile b) (UtilizeCache b) v
    (gitIgnored b) (mounts b) (allMounts b) (exportsContainerID b)
    (Rockerfile b) (ContextDir b) (Auth b).

Definition set_gitIgnored (v : bool) (b : Builder) : Builder :=
  mkBuilder (Config b) (imageID b) (dockerfile b) (UtilizeCache b)
    (cacheBusted b) v (mounts b) (allMounts b) (exportsContainerID b)
    (Rockerfile b) (ContextDir b) (Auth b).

Definition set_exportsContainerID (i : string) (b : Builder) : Builder :=
  mkBuilder (Config b) (imageID b) (dockerfile b) (UtilizeCache b)
    (cacheBusted b) (gitIgnored b) (mounts b) (allMounts b) i
    (Rockerfile b) (ContextDir b) (Auth b).

Definition set_Cmd (cmd : list string) (c : docker.Config) : docker.Config :=
  docker.mkConfig cmd (docker.Entrypoint c) (docker.Env c) (docker.CImage c)
    (docker.Volumes c) (docker.Labels c).

Definition set_Labels (l : option loc) (c : docker.Config) : docker.Config :=
  docker.mkConfig (docker.Cmd c) (docker.Entrypoint c) (docker.Env c)
    (docker.CImage c) (docker.Volumes c) l.

(** ** The outside *)

Record BuildImageOptions := mkBuildImageOptions {
  optDockerfile : string;
  optContextDir : string;
  NoCache : bool;
  optAuth : string
}.

(** [imagename.ImageName] with what [NameWithRegistry], [GetTag] and
    [String] return for it. *)
Record ImageName := mkImageName {
  Registry : string;
  NameWithRegistry : string;
  GetTag : string;
  imageString : string
}.

Record PullImageOptions := mkPullImageOptions {
  pullRepository : string;
  pullRegistry : string;
  pullTag : string
}.

Record PushImageOptions := mkPushImageOptions {
  pushName : string;
  pushTag : string;
  pushRegistry : string
}.

Inductive Effect :=
| EListImages
| EInspectImage (id : string)
| EBuildImage (opts : BuildImageOptions)
| EPullImage (opts : PullImageOptions) (auth : string)
| EPushImage (opts : PushImageOptions) (auth : string)
| EEnsureContainer (name : string) (config : docker.ConfigData) (purpose : string)
| EStat (path : string)
| EOpen (path : string)
| EWriteFile (path content : string)
| ERemove (path : string)
| EDisplay (stream : string)
| EOutput (text : string).

(** The log, oldest effect first. *)
Abbreviation Log := (list Effect).

(** The state a method runs in: the builder, the heap its configuration
    points into, and the log. *)
Record State := mkState {
  builder : Builder;
  heap : Heap;
  log : Log
}.

Definition emit (e : Effect) (st : State) : State :=
  mkState (builder st) (heap st) (log st ++ [e]).

Definition with_builder (f : Builder -> Builder) (st : State) : State :=
  mkState (f (builder st)) (heap st) (log st).

Definition nl : string := String (ascii_of_nat 10) "".

(** ** Config overlay: addLabels, temporaryCmd, temporaryConfig *)

(** [for k, v := range labels { m[k] = v }] on the content of a map
    object. The keys of [labels] are distinct, so the order in which the
    loop meets them does not show in the result ([storeAll_union]). *)
Definition storeAll (labels old : gmap string string) : gmap string string :=
  foldr (fun kv m => <[kv.1 := kv.2]> m) old (map_to_list labels).

Definition addLabels (labels : gmap string string) (st : State) : State :=
  let st1 :=
    match docker.Labels (Config (builder st)) with
    | None =>
        let '(l, h) := allocLabels ∅ (heap st) in
        mkState (set_Config (set_Labels (Some l) (Config (builder st))) (builder st))
          h (log st)
    | Some _ => st
    end in
  match docker.Labels (Config (builder st1)) with
  | None => st1
  | Some l =>
      let old := default ∅ (labelMaps (heap st1) !! l) in
      mkState (builder st1) (storeLabels l (storeAll labels old) (heap st1)) (log st1)
  end.

(** A method that returns a closure returns the state it leaves and the
    closure, itself a state transformer; the variable the closure captures
    ([origCmd], [origConfig]) is reachable from nowhere else and is held as
    a value. *)
Definition assignCmd (cmd : list string) (st : State) : State :=
  with_builder (fun b => set_Config (set_Cmd cmd (Config b)) b) st.

Definition temporaryCmd (cmd : list string) (st : State) : State * (State -> State) :=
  let origCmd := docker.Cmd (Config (builder st)) in
  (assignCmd cmd st,
   fun st' => assignCmd origCmd st').

Definition assignConfig (c : docker.Config) (st : State) : State :=
  with_builder (set_Config c) st.

Definition temporaryConfig (fn : State -> State) (st : State) : State * (State -> State) :=
  (* actually copy the whole config *)
  let origConfig := Config (builder st) in
  (fn st,
   fun st' => assignConfig origConfig st').

(** ** Mounts *)

Definition containerIds (ms : list mount) : gset string :=
  list_to_set (filter (fun i => i <> "") (containerID <$> ms)).

(** The result ranges over a Go map: the set is what is determined, the
    order of the slice is not. *)
Definition getMountContainerIds (b : Builder) : gset string :=
  containerIds (mounts b).

Definition getAllMountContainerIds (b : Builder) : gset string :=
  containerIds (allMounts b).

Definition getBinds (b : Builder) : list string :=
  (fun m => src m +:+ ":" +:+ dest m) <$> filter (fun m => containerID m = "") (mounts b).

(** ** The cache prober's collecting loop *)

Inductive response :=
| RespImage (image : docker.Image)
| RespErr (err : error).

(** What a goroutine of the fan-out sends, and the instant, counted from
    the start of the fan-out, at which it is ready to send it. A list of
    arrivals is in the order the loop receives them. *)
Record arrival := mkArrival {
  readyAt : Z;
  resp : response
}.

Definition timeout : Z := 10.

Definition errTimeout : error := "Timeout while fetching cached images".

(** ** The collaborators *)

(** The engine client ([builder.Docker]). An answer depends on the call and
    on the log at the time of the call. [BuildImage], [PullImage] and
    [PushImage] answer with the text they write to their output stream and
    their error. *)
Record DockerClient := mkDockerClient {
  ListImages : Log -> result (list docker.APIImages);
  InspectImage : Log -> string -> result docker.Image;
  BuildImage : Log -> BuildImageOptions -> string * option error;
  PullImage : Log -> PullImageOptions -> string -> string * option error;
  PushImage : Log -> PushImageOptions -> string -> string * option error
}.

(** The files of the context directory: [os.Stat] with [os.IsNotExist],
    [os.Open] with the lines a scanner reads and the scanner's error, and
    [ioutil.WriteFile]. *)
Record FileSystem := mkFileSystem {
  fileExists : Log -> string -> bool;
  openFile : Log -> string -> result (list string * option error);
  writeFile : Log -> string -> string -> option error
}.

(** How a method ends: it returns, or it panics (a nil dereference). *)
Inductive completion :=
| Returned (err : option error)
| Panicked.

(** The order in which the answers of the fan-out are received: the
    sibling a goroutine inspects and the instant its answer is ready. *)
Abbreviation Schedule := (list (string * Z)).

Definition join (sep : string) (l : list string) : string :=
  match l with
  | [] => ""
  | x :: xs => foldl (fun acc y => acc +:+ sep +:+ y) x xs
  end.

Fixpoint removeFirst (x : string) (l : list string) : list string :=
  match l with
  | [] => []
  | y :: ys => if decide (y = x) then ys else y :: removeFirst x ys
  end.

(** ** captureImageID *)

(** The class [[a-z0-9]]. *)
Definition isLowerAlnum (c : ascii) : bool :=
  let n := nat_of_ascii c in
  (((97 <=? n) && (n <=? 122)) || ((48 <=? n) && (n <=? 57)))%nat.

(** [n] characters of a class at the head of a string: the characters and
    the rest. *)
Fixpoint takeClass (cls : ascii -> bool) (n : nat) (s : string) : option string :=
  match n with
  | O => Some ""
  | S n' =>
      match s with
      | String c s' =>
          if cls c then
            match takeClass cls n' s' with
            | Some t => Some (String c t)
            | None => None
            end
          else None
      | EmptyString => None
      end
  end.

(** A literal at the head of a string: the rest of the string. *)
Fixpoint stripPrefix (lit s : string) : option string :=
  match lit, s with
  | EmptyString, _ => Some s
  | String a lit', String b s' => if decide (a = b) then stripPrefix lit' s' else None
  | String _ _, EmptyString => None
  end.

(** The pattern [lit([cls]{n})] matched at the head of [s]: the group. *)
Definition matchHere (lit : string) (cls : ascii -> bool) (n : nat) (s : string)
  : option string :=
  match stripPrefix lit s with
  | Some rest => takeClass cls n rest
  | None => None
  end.

(** [FindStringSubmatch] for a pattern [lit([cls]{n})]: the group of the
    leftmost match ([matches[1]]), [None] when [len(matches) == 0]. *)
Fixpoint findSubmatch (lit : string) (cls : ascii -> bool) (n : nat) (s : string)
  : option string :=
  match matchHere lit cls n s with
  | Some g => Some g
  | None =>
      match s with
      | EmptyString => None
      | String _ s' => findSubmatch lit cls n s'
      end
  end.

(** [regexp.MustCompile("Successfully built ([a-z0-9]{12})")] *)
Definition captureImageID (s : string) : option string :=
  findSubmatch "Successfully built " isLowerAlnum 12 s.

(** Every character of a string is in a class. *)
Fixpoint stringAll (cls : ascii -> bool) (s : string) : bool :=
  match s with
  | EmptyString => true
  | String c s' => cls c && stringAll cls s'
  end.

(** A hexadecimal digit, in either case. *)
Definition isHexDigit (c : ascii) : bool :=
  let n := nat_of_ascii c in
  (((48 <=? n) && (n <=? 57)) || ((97 <=? n) && (n <=? 102))
   || ((65 <=? n) && (n <=? 70)))%nat.

(** The text holds twelve hexadecimal digits in a row somewhere. *)
Definition hasHexToken (s : string) : bool :=
  bool_decide (is_Some (findSubmatch "" isHexDigit 12 s)).

(** ** Sessions

    What a caller can do to a builder with the methods of this file, in
    sequence. The closure a [temporary...] method returns may be run at any
    later point ([RunRestore...], with the value the closure captured); the
    function handed to [temporaryConfig] is itself such a sequence. *)
Inductive Program :=
| Skip
| Seq (p q : Program)
| CheckDockerignore
| RunDockerfile
| AddLabels (labels : gmap string string)
| TemporaryCmd (cmd : list string)
| RunRestoreCmd (origCmd : list string)
| TemporaryConfig (fn : Program)
| RunRestoreConfig (origConfig : docker.Config)
| ProbeCache (sched : Schedule)
| EnsureImage (imageName purpose : string)
| PushImage_ (image : ImageName)
| MakeExportsContainer.

Definition isEnsureContainer (e : Effect) : bool :=
  match e with
  | EEnsureContainer _ _ _ => true
  | _ => false
  end.

(** The number of container-creation calls in a log. *)
Definition ensureCalls (l : Log) : nat :=
  length (filter (fun e => isEnsureContainer e = true) l).
Arguments ensureCalls : simpl never.

(** ** A session to evaluate the methods on *)

Definition exampleConfig : docker.ConfigData :=
  docker.mkConfigData ["/bin/sh"; "-c"; "make"] [] ["PATH=/bin"] "" None
    (Some {[ "a" := "1" ]}).

Definition otherConfig : docker.ConfigData :=
  docker.mkConfigData ["/bin/sh"; "-c"; "true"] [] ["PATH=/bin"] "" None None.

Definition imageA : docker.Image :=
  docker.mkImage "aaaaaaaaaaaa" "base" 100 exampleConfig exampleConfig.

Definition imageB : docker.Image :=
  docker.mkImage "bbbbbbbbbbbb" "base" 200 exampleConfig exampleConfig.

Definition imageC : docker.Image :=
  docker.mkImage "cccccccccccc" "base" 300 otherConfig otherConfig.

Definition imageZ : docker.Image :=
  docker.mkImage "zzzzzzzzzzzz" "base" 400 otherConfig otherConfig.

Definition exampleOutput : string := "Successfully built zzzzzzzzzzzz".

(** An engine that lists three children of [base], builds an image it
    reports as [zzzzzzzzzzzz] and knows no other image. *)
Definition exampleEngine : DockerClient :=
  mkDockerClient
    (fun _ => Ok [docker.mkAPIImages "aaaaaaaaaaaa" "base";
                  docker.mkAPIImages "bbbbbbbbbbbb" "base";
                  docker.mkAPIImages "cccccccccccc" "base";
                  docker.mkAPIImages "base" ""])
    (fun _ id =>
       if decide (id = "aaaaaaaaaaaa") then Ok imageA
       else if decide (id = "bbbbbbbbbbbb") then Ok imageB
       else if decide (id = "cccccccccccc") then Ok imageC
       else if decide (id = "zzzzzzzzzzzz") then Ok imageZ
       else Err "no such image")
    (fun _ _ => (exampleOutput, None))
    (fun _ _ _ => ("", None))
    (fun _ _ _ => ("", None)).

Definition exampleFS : FileSystem :=
  mkFileSystem (fun _ _ => false) (fun _ _ => Ok ([], None)) (fun _ _ _ => None).

Definition exampleDisplay (stream : string) : option error := None.

(** A comparison of the sequence-typed fields, to run the prober with. *)
Definition compareCommands (a b : docker.ConfigData) : bool :=
  bool_decide (docker.dCmd a = docker.dCmd b)
  && bool_decide (docker.dEntrypoint a = docker.dEntrypoint b)
  && bool_decide (docker.dEnv a = docker.dEnv b).

Definition exampleAstToString (n : Node) : result string :=
  Ok (join nl ((fun c => Value c +:+ " " +:+ from_option Value "" (Next c)) <$> Children n)).

Definition exampleEnsureContainer (l : Log) (name : string) (config : docker.ConfigData)
    (purpose : string) : result docker.Container :=
  Ok (docker.mkContainer "c0ffee").

Definition exampleName (b : Builder) : string := "rocker_" +:+ Rockerfile b.

Definition exampleImageName (s : string) : ImageName := mkImageName "" s "latest" s.

Definition examplePathJoin (a b : string) : string := a +:+ "/" +:+ b.

Definition exampleImages : list docker.Image := [imageA; imageB; imageC].

(** The three candidates answer one, two and three seconds after the
    start of the fan-out. *)
Definition exampleArrivals : list arrival :=
  [mkArrival 1 (RespImage imageA); mkArrival 2 (RespImage imageB);
   mkArrival 3 (RespImage imageC)].

Definition exampleBuilder : Builder :=
  mkBuilder
    (docker.mkConfig ["/bin/sh"; "-c"; "make"] [] ["PATH=/bin"] "" None (Some 0))
    "base"
    (mkNode "" None [mkNode "run" (Some (mkNode "make" None [])) []])
    true false false [] [] "" "Rockerfile" "/ctx" "".

Definition exampleState : State :=
  mkState exampleBuilder (mkHeap [{[ "a" := "1" ]}] []) [].

Definition bustedState : State :=
  with_builder (set_cacheBusted true) exampleState.

Definition idleState : State :=
  with_builder (set_dockerfile (mkNode "" None [])) exampleState.


Definition noImageState : State := with_builder (set_imageID "") exampleState.

Definition scratchFrom : Node := mkNode "from" (Some (mkNode "scratch" None [])) [].

Definition scratchState : State :=
  with_builder (set_dockerfile (mkNode "" None [scratchFrom])) exampleState.

Definition leafState : State := with_builder (set_imageID "zzzzzzzzzzzz") exampleState.

Definition gitState : State := with_builder (set_gitIgnored true) exampleState.

Definition completeLines : list string :=
  [".git"; ".dockerignore"; "rocker_Rockerfile*"; "rocker_Rockerfile"].

Definition completeFS : FileSystem :=
  mkFileSystem (fun _ _ => true) (fun _ _ => Ok (completeLines, None)) (fun _ _ _ => None).

Definition partialFS : FileSystem :=
  mkFileSystem (fun _ _ => true) (fun _ _ => Ok ([".git"; "node_modules"], None))
    (fun _ _ _ => None).

Definition failingEnsureContainer (l : Log) (name : string) (config : docker.ConfigData)
    (purpose : string) : result docker.Container :=
  Err "cannot create".

Definition swappedArrivals : list arrival :=
  [mkArrival 1 (RespImage imageB); mkArrival 2 (RespImage imageA);
   mkArrival 3 (RespImage imageC)].

Definition swappedImages : list docker.Image := [imageB; imageA; imageC].

Definition twoLabels : gmap string string := <[ "b" := "2" ]> {[ "a" := "1" ]}.

(** ** The methods that talk to the outside *)

Section Internals.

(** The engine, the file system and [jsonmessage.DisplayJSONMessagesStream],
    which answers with the error it finds in the stream it displays. *)
Variable Docker : DockerClient.
Variable FS : FileSystem.
Variable DisplayJSONMessagesStream : string -> option error.

(** Functions and constants of the package that other files define. *)
Variable CompareConfigs : docker.ConfigData -> docker.ConfigData -> bool.
Variable RockerfileAstToString : Node -> result string.
Variable ensureContainer : Log -> string -> docker.ConfigData -> string -> result docker.Container.
Variable dockerfileName exportsContainerName getTmpPrefix rockerfileRelativePath : Builder -> string.
Variable rsyncImage exportsVolume : string.
Variable NewFromString : string -> ImageName.
Variable pathJoin : string -> string -> string.

(** When an answer becomes ready at the very instant the timer of the
    [select] expires, Go picks either case. *)
Variable timerWinsTies : bool.

(** *** imageGetCached *)

(** The [time.After(10 * time.Second)] case of the [select] that is entered
    at [now], against an answer that is ready at [ready]. *)
Definition timerFires (now ready : Z) : bool :=
  if timerWinsTies then (now + timeout <=? ready)%Z else (now + timeout <? ready)%Z.

(** The [for { select { ... } }] loop, with the instant at which it
    returns. When no goroutine sends any more, the timer is the only case
    left. *)
Fixpoint collect (config : docker.ConfigData) (n : nat) (arrivals : list arrival)
    (now : Z) (match_ : option docker.Image) (numResponses : nat)
  : result (option docker.Image) * Z :=
  match arrivals with
  | [] => (Err errTimeout, (now + timeout)%Z)
  | a :: rest =>
      if timerFires now (readyAt a) then (Err errTimeout, (now + timeout)%Z)
      else
        let now' := Z.max now (readyAt a) in
        match resp a with
        | RespErr err => (Err err, now')
        | RespImage image =>
            let match' :=
              if CompareConfigs (docker.ContainerConfig image) config then
                match match_ with
                | None => Some image
                | Some m =>
                    if (docker.Created m <? docker.Created image)%Z
                    then Some image else match_
                end
              else match_ in
            let numResponses' := S numResponses in
            if decide (n = numResponses') then (Ok match', now')
            else collect config n rest now' match' numResponses'
        end
  end.

Definition inspectResponse (l : Log) (siblingID : string) : response :=
  match InspectImage Docker l siblingID with
  | Ok image => RespImage image
  | Err err => RespErr err
  end.

(** The goroutines are started one per sibling, each calls [InspectImage];
    the calls read the engine as it is when the fan-out starts. *)
Definition imageGetCached (sched : Schedule) (imageID : string)
    (config : docker.ConfigData) (st : State)
  : State * result (option docker.Image) :=
  let st1 := emit EListImages st in
  match ListImages Docker (log st) with
  | Err err => (st1, Err err)
  | Ok images =>
      let siblings :=
        docker.apiID <$> filter (fun img => docker.ParentID img = imageID) images in
      if decide (length siblings = 0) then (st1, Ok None)
      else
        let st2 := foldl (fun s id => emit (EInspectImage id) s) st1 siblings in
        let arrivals :=
          (fun '(id, t) => mkArrival t (inspectResponse (log st1) id)) <$> sched in
        (st2, fst (collect config (length siblings) arrivals 0 None 0))
  end.

(** *** probeCache *)

Definition probeCache (sched : Schedule) (st : State) : State * (bool * option error) :=
  let b := builder st in
  if negb (UtilizeCache b) || cacheBusted b then (st, (false, None))
  else
    match imageGetCached sched (imageID b) (readConfig (heap st) (Config b)) st with
    | (st1, Err err) => (st1, (false, Some err))
    | (st1, Ok None) => (with_builder (set_cacheBusted true) st1, (false, None))
    | (st1, Ok (Some cache)) =>
        let st2 := emit (EOutput ("[Rocker]  ---> Using cache" +:+ nl)) st1 in
        (with_builder (set_imageID (docker.ID cache)) st2, (true, None))
    end.

(** *** runDockerfile *)

Definition scratchLabel : Node :=
  mkNode "label" (Some (mkNode "ROCKER_SCRATCH=1" None [])) [].

Definition fromNode (image : string) : Node :=
  mkNode "from" (Some (mkNode image None [])) [].

Definition set_Children (cs : list Node) (n : Node) : Node :=
  mkNode (Value n) (Next n) cs.

Definition errNoImageID : error := "Couldn't find image id out of docker build output".

(** The end of [runDockerfile], from [InspectImage] on; [os.Remove] is
    deferred and runs on every return after the write. *)
Definition inspectBuilt (imageID path : string) (st : State) : State * option error :=
  let st1 := emit (EInspectImage imageID) st in
  match InspectImage Docker (log st) imageID with
  | Err err =>
      (* fix go-dockerclient non descriptive error *)
      let err' :=
        if decide (err = "no such image")
        then "No such image: " +:+ imageID else err in
      (emit (ERemove path) st1, Some err')
  | Ok image =>
      let '(cfg, h) := newConfig (docker.ImageConfig image) (heap st1) in
      let b' :=
        set_dockerfile (mkNode "" None [])
          (set_Config cfg (set_imageID (docker.ID image) (builder st1))) in
      (emit (ERemove path) (mkState b' h (log st1)), None)
  end.

(** The middle of [runDockerfile], from the write of the Dockerfile to the
    capture of the image id. *)
Definition buildAndInspect (name path content : string) (st : State)
  : State * option error :=
  let b := builder st in
  let st1 := emit (EWriteFile path content) st in
  match writeFile FS (log st) path content with
  | Some err => (st1, Some err)
  | None =>
      let opts := mkBuildImageOptions name (ContextDir b) (negb (UtilizeCache b)) (Auth b) in
      let '(out, buildErr) := BuildImage Docker (log st1) opts in
      let st2 := emit (EDisplay out) (emit (EBuildImage opts) st1) in
      match DisplayJSONMessagesStream out with
      | Some err =>
          (emit (ERemove path) st2,
           Some ("Failed to process json stream error: " +:+ err))
      | None =>
          match buildErr with
          | Some err =>
              (emit (ERemove path) st2, Some ("Failed to build image: " +:+ err))
          | None =>
              match captureImageID out with
              | None => (emit (ERemove path) st2, Some errNoImageID)
              | Some imageID => inspectBuilt imageID path st2
              end
          end
      end
  end.

Definition runDockerfile (st : State) : State * completion :=
  let b := builder st in
  match Children (dockerfile b) with
  | [] => (st, Returned None)
  | first :: others =>
      (* HACK: skip if all we have is "FROM scratch" *)
      let hack : option (list Node) :=
        if decide (length (first :: others) = 1) then
          if decide (Value first = "from") then
            match Next first with
            | None => None
            | Some arg =>
                if decide (Value arg = "scratch")
                then Some ((first :: others) ++ [scratchLabel])
                else Some (first :: others)
            end
          else Some (first :: others)
        else Some (first :: others) in
      match hack with
      | None => (st, Panicked)
      | Some children1 =>
          let st1 := with_builder (fun b => set_dockerfile (set_Children children1 (dockerfile b)) b) st in
          (* missing from, use latest image sha *)
          let missing : result State :=
            if decide (Value first <> "from") then
              if decide (imageID b = "") then Err "Missing initial FROM instruction"
              else Ok (with_builder
                         (fun b => set_dockerfile
                                     (set_Children (fromNode (imageID b) :: children1) (dockerfile b)) b)
                         st1)
            else Ok st1 in
          match missing with
          | Err err => (st1, Returned (Some err))
          | Ok st2 =>
              let name := dockerfileName (builder st2) in
              let path := pathJoin (ContextDir (builder st2)) name in
              match RockerfileAstToString (dockerfile (builder st2)) with
              | Err err => (st2, Returned (Some err))
              | Ok content =>
                  let '(st3, err) := buildAndInspect name path content st2 in
                  (st3, Returned err)
              end
          end
      end
  end.

(** *** ensureImage, pushImage *)

Definition ensureImage (imageName purpose : string) (st : State) : State * option error :=
  let st1 := emit (EInspectImage imageName) st in
  match InspectImage Docker (log st) imageName with
  | Ok _ => (st1, None)
  | Err err =>
      if decide (err = "no such image") then
        let st2 :=
          emit (EOutput ("[Rocker] Pulling image: " +:+ imageName +:+ " for "
                         +:+ purpose +:+ nl)) st1 in
        let image := NewFromString imageName in
        let pullOpts :=
          mkPullImageOptions (NameWithRegistry image) (Registry image) (GetTag image) in
        let auth := Auth (builder st) in
        let '(out, pullErr) := PullImage Docker (log st2) pullOpts auth in
        let st3 := emit (EDisplay out) (emit (EPullImage pullOpts auth) st2) in
        match DisplayJSONMessagesStream out with
        | Some err' =>
            (st3, Some ("Failed to process json stream for image: "
                        +:+ imageString image +:+ ", error: " +:+ err'))
        | None =>
            match pullErr with
            | Some err' =>
                (st3, Some ("Failed to pull image: " +:+ imageString image
                            +:+ ", error: " +:+ err'))
            | None => (st3, None)
            end
        end
      else (st1, Some err)
  end.

Definition pushImage (image : ImageName) (st : State) : State * option error :=
  let opts := mkPushImageOptions (NameWithRegistry image) (GetTag image) (Registry image) in
  let auth := Auth (builder st) in
  let '(out, pushErr) := PushImage Docker (log st) opts auth in
  let st1 := emit (EDisplay out) (emit (EPushImage opts auth) st) in
  match DisplayJSONMessagesStream out with
  | Some err =>
      (st1, Some ("Failed to process json stream for image: "
                  +:+ imageString image +:+ ", error: " +:+ err))
  | None =>
      match pushErr with
      | Some err =>
          (st1, Some ("Failed to push image: " +:+ imageString image
                      +:+ ", error: " +:+ err))
      | None => (st1, None)
      end
  end.

(** *** makeExportsContainer *)

Definition exportsConfig (b : Builder) : docker.ConfigData :=
  docker.mkConfigData [] [] [] rsyncImage
    (Some ({[ "/opt/rsync/bin" ]} ∪ {[ exportsVolume ]}))
    (Some (<[ "ImageId" := imageID b ]> {[ "Rockerfile" := Rockerfile b ]})).

Definition makeExportsContainer (st : State) : State * result string :=
  let b := builder st in
  if decide (exportsContainerID b <> "") then (st, Ok (exportsContainerID b))
  else
    let name := exportsContainerName b in
    let containerConfig := exportsConfig b in
    let st1 := emit (EEnsureContainer name containerConfig "exports") st in
    match ensureContainer (log st) name containerConfig "exports" with
    | Err err => (st1, Err err)
    | Ok container =>
        (with_builder (set_exportsContainerID (docker.containerID container)) st1,
         Ok (docker.containerID container))
    end.

(** *** checkDockerignore *)

(** The body of the scanner loop for one line. *)
Definition scanLine (acc : list string * list string * bool) (currentLine : string)
  : list string * list string * bool :=
  let '(newLines, ignoreLines, git) := acc in
  (newLines ++ [currentLine],
   removeFirst currentLine ignoreLines,
   if decide (currentLine = ".git") then true else git).

Definition checkDockerignore (st : State) : State * option error :=
  let b := builder st in
  let ignoreLines :=
    [".dockerignore"; getTmpPrefix b +:+ "*"; rockerfileRelativePath b] in
  let dockerignoreFile := pathJoin (ContextDir b) ".dockerignore" in
  let st1 := emit (EStat dockerignoreFile) st in
  if negb (fileExists FS (log st) dockerignoreFile) then
    (* everything is easy, we just need to create one *)
    let st2 := emit (EOutput ("[Rocker] Create .dockerignore in context directory" +:+ nl)) st1 in
    let newLines :=
      "# This file is automatically generated by Rocker, please keep it" :: ignoreLines in
    let content := join nl newLines +:+ nl in
    (emit (EWriteFile dockerignoreFile content) st2,
     writeFile FS (log st2) dockerignoreFile content)
  else
    (* more difficult, find missing lines *)
    let st2 := emit (EOpen dockerignoreFile) st1 in
    match openFile FS (log st1) dockerignoreFile with
    | Err err => (st2, Some err)
    | Ok (lines, scanErr) =>
        let '(newLines, missing, git) :=
          foldl scanLine ([], ignoreLines, gitIgnored b) lines in
        let st3 := with_builder (set_gitIgnored git) st2 in
        match scanErr with
        | Some err => (st3, Some err)
        | None =>
            (* if we have still something to add - do it *)
            if decide (0 < length missing) then
              let st4 :=
                emit (EOutput ("[Rocker] Add " +:+ pretty (length missing)
                               +:+ " lines to .dockerignore" +:+ nl)) st3 in
              let content := join nl (newLines ++ missing) +:+ nl in
              (emit (EWriteFile dockerignoreFile content) st4,
               writeFile FS (log st4) dockerignoreFile content)
            else (st3, None)
        end
    end.

(** *** Running a session *)

Fixpoint exec (p : Program) (st : State) : State :=
  match p with
  | Skip => st
  | Seq p q => exec q (exec p st)
  | CheckDockerignore => fst (checkDockerignore st)
  | RunDockerfile => fst (runDockerfile st)
  | AddLabels labels => addLabels labels st
  | TemporaryCmd cmd => fst (temporaryCmd cmd st)
  | RunRestoreCmd origCmd => assignCmd origCmd st
  | TemporaryConfig fn => fst (temporaryConfig (exec fn) st)
  | RunRestoreConfig origConfig => assignConfig origConfig st
  | ProbeCache sched => fst (probeCache sched st)
  | EnsureImage imageName purpose => fst (ensureImage imageName purpose st)
  | PushImage_ image => fst (pushImage image st)
  | MakeExportsContainer => fst (makeExportsContainer st)
  end.

(** *** Notions the properties are stated with *)

(** The draft as a caller reads it: the struct with the content of its
    maps. *)
Definition draft (st : State) : docker.ConfigData :=
  readConfig (heap st) (Config (builder st)).

(** The candidate's originating configuration equals the probed one. *)
Definition matching (config : docker.ConfigData) (image : docker.Image) : bool :=
  CompareConfigs (docker.ContainerConfig image) config.

(** Every arrival is received before the timer of its [select] fires. *)
Fixpoint inTime (now : Z) (arrivals : list arrival) : bool :=
  match arrivals with
  | [] => true
  | a :: rest =>
      negb (timerFires now (readyAt a)) && inTime (Z.max now (readyAt a)) rest
  end.

(** The second state has the cache-busted flag, the export container and
    the number of container-creation calls of the first. *)
Definition keeps (st st' : State) : Prop :=
  cacheBusted (builder st') = cacheBusted (builder st)
  /\ exportsContainerID (builder st') = exportsContainerID (builder st)
  /\ ensureCalls (log st') = ensureCalls (log st).


(** The update of [match] for one received image. *)
Definition pickStep (config : docker.ConfigData) (match_ : option docker.Image)
    (image : docker.Image) : option docker.Image :=
  if matching config image then
    match match_ with
    | None => Some image
    | Some m =>
        if (docker.Created m <? docker.Created image)%Z then Some image else match_
    end
  else match_.

(** What the fold of [pickStep] holds after a run of images: nothing when
    none matched; otherwise a matching image that is strictly later than
    every matching image received before it and at least as late as every
    matching image received after it. *)
Definition picked (config : docker.ConfigData) (imgs : list docker.Image)
    (r : option docker.Image) : Prop :=
  match r with
  | None => forall image, image ∈ imgs -> matching config image = false
  | Some m =>
      exists before after,
        imgs = before ++ m :: after /\
        matching config m = true /\
        (forall image, image ∈ before -> matching config image = true ->
                       (docker.Created image < docker.Created m)%Z) /\
        (forall image, image ∈ after -> matching config image = true ->
                       (docker.Created image <= docker.Created m)%Z)
  end.

(** Every reference of the draft is in the heap, as in Go. *)
Definition wellFormed (st : State) : Prop :=
  (forall l, docker.Labels (Config (builder st)) = Some l ->
             (l < length (labelMaps (heap st)))%nat)
  /\ (forall l, docker.Volumes (Config (builder st)) = Some l ->
                (l < length (volumeMaps (heap st)))%nat).

(** The lines [checkDockerignore] wants in the file, and the file. *)
Definition requiredLines (b : Builder) : list string :=
  [".dockerignore"; getTmpPrefix b +:+ "*"; rockerfileRelativePath b].

Definition dockerignoreFile (b : Builder) : string :=
  pathJoin (ContextDir b) ".dockerignore".

(** The required lines that the scanner loop has not met, line after line. *)
Definition stillMissing (ignoreLines lines : list string) : list string :=
  foldl (fun ign currentLine => removeFirst currentLine ign) ignoreLines lines.

(** The second state has the image identity, the configuration struct and
    the heap of the first. *)
Definition sameImage (st st' : State) : Prop :=
  imageID (builder st') = imageID (builder st)
  /\ Config (builder st') = Config (builder st)
  /\ heap st' = heap st.


(** A function of the builder that does not read the fields the methods
    of this file assign, but for [gitIgnored]. *)
Definition unassigned {A : Type} (f : Builder -> A) : Prop :=
  (forall c b, f (set_Config c b) = f b)
  /\ (forall i b, f (set_imageID i b) = f b)
  /\ (forall n b, f (set_dockerfile n b) = f b)
  /\ (forall v b, f (set_cacheBusted v b) = f b)
  /\ (forall i b, f (set_exportsContainerID i b) = f b).

(** ** Properties of the overlay and of the mounts *)

Lemma storeAll_union labels old : storeAll labels old = labels ∪ old.
Proof.
  unfold storeAll.
  rewrite <- (list_to_map_to_list labels) at 2.
  induction (map_to_list labels) as [|[k v] kvs IH]; simpl.
  - by rewrite (left_id ∅ (∪)).
  - by rewrite IH, insert_union_l.
Qed.

Lemma getMountContainerIds_nonempty b : "" ∉ getMountContainerIds b.
Proof.
  unfold getMountContainerIds, containerIds.
  rewrite elem_of_list_to_set, list_elem_of_filter. intros [Hne _]. by apply Hne.
Qed.

Lemma getBinds_host_binds b bind :
  bind ∈ getBinds b ->
  exists m, m ∈ mounts b /\ containerID m = "" /\ bind = src m +:+ ":" +:+ dest m.
Proof.
  unfold getBinds. intros Hin.
  apply list_elem_of_fmap in Hin as (m & -> & Hm).
  apply list_elem_of_filter in Hm as [Hhost Hm]. by exists m.
Qed.

(** ** Properties of the collecting loop *)

Lemma collect_nil config n now m k :
  collect config n [] now m k = (Err errTimeout, (now + timeout)%Z).
Proof. reflexivity. Qed.

Lemma collect_image config n t image rest now m k :
  timerFires now t = false ->
  collect config n (mkArrival t (RespImage image) :: rest) now m k =
    if decide (n = S k) then (Ok (pickStep config m image), Z.max now t)
    else collect config n rest (Z.max now t) (pickStep config m image) (S k).
Proof. intros Ht. simpl. rewrite Ht. reflexivity. Qed.

Lemma collect_error config n t err rest now m k :
  timerFires now t = false ->
  collect config n (mkArrival t (RespErr err) :: rest) now m k = (Err err, Z.max now t).
Proof. intros Ht. simpl. rewrite Ht. reflexivity. Qed.

Lemma collect_timer config n a rest now m k :
  timerFires now (readyAt a) = true ->
  collect config n (a :: rest) now m k = (Err errTimeout, (now + timeout)%Z).
Proof. intros Ht. simpl. rewrite Ht. reflexivity. Qed.

Lemma timerFires_false_le now t : timerFires now t = false -> (t <= now + timeout)%Z.
Proof. unfold timerFires. destruct timerWinsTies; lia. Qed.

(** When every answer is an image and arrives in time, the loop returns
    the fold of [pickStep] over the images, in the order received. *)
Lemma collect_all_images config imgs : forall arrivals now m k n,
  resp <$> arrivals = RespImage <$> imgs ->
  inTime now arrivals = true ->
  imgs <> [] ->
  n = (k + length imgs)%nat ->
  fst (collect config n arrivals now m k) = Ok (foldl (pickStep config) m imgs).
Proof.
  induction imgs as [|image imgs IH]; intros arrivals now m k n Hresp Htime Hne Hn.
  - congruence.
  - destruct arrivals as [|[t r] arrivals]; [discriminate|].
    simpl in Hresp. injection Hresp as Hr Hrest. subst r.
    simpl in Htime. apply andb_prop in Htime as [Ht Htime].
    apply negb_true_iff in Ht.
    rewrite collect_image by exact Ht.
    destruct imgs as [|image' imgs].
    + simpl in Hn. rewrite decide_True by lia. reflexivity.
    + simpl in Hn. rewrite decide_False by lia.
      apply IH; [exact Hrest|exact Htime|discriminate|simpl; lia].
Qed.

Lemma pickStep_picked config imgs :
  picked config imgs (foldl (pickStep config) None imgs).
Proof.
  induction imgs as [|image imgs IH] using rev_ind; [intros x Hx; inversion Hx|].
  rewrite foldl_app. simpl.
  destruct (foldl (pickStep config) None imgs) as [m|] eqn:Hfold;
    unfold pickStep; simpl in IH.
  - destruct IH as (before & after & -> & Hm & Hbefore & Hafter).
    destruct (matching config image) eqn:Himage.
    + destruct (docker.Created m <? docker.Created image)%Z eqn:Hlt.
      * apply Z.ltb_lt in Hlt.
        exists (before ++ m :: after), []. repeat split; [done| |].
        -- intros x Hx Hmx.
           apply elem_of_app in Hx as [Hx|Hx]; [specialize (Hbefore x Hx Hmx); lia|].
           apply elem_of_cons in Hx as [->|Hx]; [lia|].
           specialize (Hafter x Hx Hmx); lia.
        -- intros x Hx. inversion Hx.
      * apply Z.ltb_ge in Hlt.
        exists before, (after ++ [image]). repeat split.
        -- by rewrite <- app_assoc.
        -- done.
        -- done.
        -- intros x Hx Hmx. apply elem_of_app in Hx as [Hx|Hx]; [by apply Hafter|].
           apply list_elem_of_singleton in Hx as ->. lia.
    + exists before, (after ++ [image]). repeat split.
      * by rewrite <- app_assoc.
      * done.
      * done.
      * intros x Hx Hmx. apply elem_of_app in Hx as [Hx|Hx]; [by apply Hafter|].
        apply list_elem_of_singleton in Hx as ->. congruence.
  - destruct (matching config image) eqn:Himage.
    + exists imgs, []. repeat split; [done| |].
      * intros x Hx Hmx. rewrite (IH x Hx) in Hmx. discriminate.
      * intros x Hx. inversion Hx.
    + intros x Hx. apply elem_of_app in Hx as [Hx|Hx]; [by apply IH|].
      apply list_elem_of_singleton in Hx as ->. done.
Qed.




(** X21. Each wait of the loop is bounded by the timer, so the loop returns
    within [timeout] per answer it still expects. *)
Lemma collect_finish_bound config n : forall arrivals now m k,
  (k < n)%nat ->
  (now <= snd (collect config n arrivals now m k) <= now + timeout * Z.of_nat (n - k))%Z.
Proof.
  unfold timeout.
  induction arrivals as [|[t r] arrivals IH]; intros now m k Hlt.
  - simpl. unfold timeout. lia.
  - destruct (timerFires now t) eqn:Ht.
    + rewrite collect_timer by exact Ht. simpl. unfold timeout. lia.
    + pose proof (timerFires_false_le _ _ Ht) as Hle. unfold timeout in Hle.
      destruct r as [image|err].
      * rewrite collect_image by exact Ht.
        destruct (decide (n = S k)) as [->|Hne]; [simpl; lia|].
        specialize (IH (Z.max now t) (pickStep config m image) (S k)).
        lia.
      * rewrite collect_error by exact Ht. simpl. lia.
Qed.

(** C1, on the code: two candidates whose answers are ready 9 and 18
    seconds after the start of the fan-out. The timer is created anew in
    each iteration of the loop, so neither wait times out and the probe
    returns its result at 18 seconds, past the ceiling of 10. *)
Theorem timer_restarts_at_each_receive config image1 image2 :
  collect config 2
    [mkArrival 9 (RespImage image1); mkArrival 18 (RespImage image2)] 0 None 0
  = (Ok (pickStep config (pickStep config None image1) image2), 18%Z).
Proof.
  rewrite collect_image by (unfold timerFires, timeout; destruct timerWinsTies; reflexivity).
  rewrite decide_False by lia.
  rewrite collect_image by (unfold timerFires, timeout; destruct timerWinsTies; reflexivity).
  rewrite decide_True by lia. reflexivity.
Qed.

(** ** Frame properties of the methods *)

Lemma emit_all_builder ids : forall st,
  builder (foldl (fun s id => emit (EInspectImage id) s) st ids) = builder st
  /\ heap (foldl (fun s id => emit (EInspectImage id) s) st ids) = heap st.
Proof.
  induction ids as [|id ids IH]; intros st; [done|].
  simpl. destruct (IH (emit (EInspectImage id) st)) as [-> ->]. done.
Qed.

Lemma imageGetCached_builder sched imageID config st :
  builder (fst (imageGetCached sched imageID config st)) = builder st
  /\ heap (fst (imageGetCached sched imageID config st)) = heap st.
Proof.
  unfold imageGetCached.
  destruct (ListImages Docker (log st)) as [images|err]; [|done].
  case_decide; [done|]. simpl.
  destruct (emit_all_builder
              (docker.apiID <$> filter (fun img => docker.ParentID img = imageID) images)
              (emit EListImages st)) as [-> ->].
  done.
Qed.

(** With candidates, the answer of [imageGetCached] is that of the loop
    run on the answers of their inspections, in the order of the schedule. *)
Lemma imageGetCached_collect sched imageID config st images :
  ListImages Docker (log st) = Ok images ->
  let siblings :=
    docker.apiID <$> filter (fun img => docker.ParentID img = imageID) images in
  siblings <> [] ->
  snd (imageGetCached sched imageID config st)
  = fst (collect config (length siblings)
           ((fun '(id, t) => mkArrival t (inspectResponse (log (emit EListImages st)) id))
              <$> sched) 0 None 0).
Proof.
  intros Hlist siblings Hne. unfold imageGetCached. rewrite Hlist.
  fold siblings. destruct siblings; [done|]. by rewrite decide_False.
Qed.

Ltac unfold_state :=
  unfold assignCmd, assignConfig, with_builder, emit, set_Config, set_imageID,
    set_dockerfile, set_cacheBusted, set_gitIgnored, set_exportsContainerID in *;
  simpl in *.

Lemma ensureCalls_snoc l e :
  ensureCalls (l ++ [e]) = (ensureCalls l + if isEnsureContainer e then 1 else 0)%nat.
Proof.
  unfold ensureCalls. rewrite filter_app, length_app.
  destruct (isEnsureContainer e) eqn:He.
  - by rewrite filter_cons_True.
  - rewrite filter_cons_False by congruence. simpl. lia.
Qed.

Lemma keeps_refl st : keeps st st.
Proof. done. Qed.

Lemma keeps_trans st1 st2 st3 : keeps st1 st2 -> keeps st2 st3 -> keeps st1 st3.
Proof. unfold keeps. intros (? & ? & ?) (? & ? & ?). split_and!; congruence. Qed.

Lemma keeps_emit e st : isEnsureContainer e = false -> keeps st (emit e st).
Proof.
  intros He. unfold keeps, emit. simpl. rewrite ensureCalls_snoc, He.
  split_and!; [done|done|lia].
Qed.

Lemma keeps_builder f st :
  (forall b, cacheBusted (f b) = cacheBusted b
             /\ exportsContainerID (f b) = exportsContainerID b) ->
  keeps st (with_builder f st).
Proof. intros Hf. unfold keeps, with_builder. simpl. destruct (Hf (builder st)). done. Qed.

Ltac keeps_step :=
  first
    [ apply keeps_refl
    | eapply keeps_trans; [|apply keeps_emit; reflexivity]
    | eapply keeps_trans; [|apply keeps_builder; intros ?; split; reflexivity] ].

Lemma addLabels_keeps labels st : keeps st (addLabels labels st).
Proof.
  unfold addLabels, allocLabels, keeps.
  destruct (docker.Labels (Config (builder st))) as [l|] eqn:Hl; simpl.
  - rewrite Hl. done.
  - done.
Qed.

Lemma inspectBuilt_keeps imageID path st : keeps st (fst (inspectBuilt imageID path st)).
Proof.
  unfold inspectBuilt.
  destruct (InspectImage Docker (log st) imageID) as [image|err]; simpl.
  - destruct (newConfig _ _) as [cfg h]. simpl.
    unfold keeps, emit. simpl. rewrite !ensureCalls_snoc. simpl.
    split_and!; [done|done|lia].
  - repeat keeps_step.
Qed.

Lemma buildAndInspect_keeps name path content st :
  keeps st (fst (buildAndInspect name path content st)).
Proof.
  unfold buildAndInspect.
  destruct (writeFile FS (log st) path content) as [err|]; simpl; [repeat keeps_step|].
  destruct (BuildImage Docker _ _) as [out buildErr].
  destruct (DisplayJSONMessagesStream out) as [err|]; simpl; [repeat keeps_step|].
  destruct buildErr as [err|]; simpl; [repeat keeps_step|].
  destruct (captureImageID out) as [imageID|]; simpl; [|repeat keeps_step].
  eapply keeps_trans; [|apply inspectBuilt_keeps]. repeat keeps_step.
Qed.

Lemma runDockerfile_keeps st : keeps st (fst (runDockerfile st)).
Proof.
  unfold runDockerfile.
  destruct (Children (dockerfile (builder st))) as [|first others]; [apply keeps_refl|].
  match goal with
  | |- context [match ?hack with Some _ => _ | None => _ end] =>
      destruct hack as [children1|]
  end; [|apply keeps_refl].
  destruct (decide (Value first <> "from")) as [Hfrom|Hfrom];
    [destruct (decide (imageID (builder st) = "")) as [Hid|Hid]|]; simpl.
  - repeat keeps_step.
  - destruct (RockerfileAstToString _) as [content|err]; simpl; [|repeat keeps_step].
    destruct (buildAndInspect _ _ _ _) as [st3 err] eqn:Hbuild. simpl.
    change st3 with (fst (st3, err)). rewrite <- Hbuild.
    eapply keeps_trans; [|apply buildAndInspect_keeps]. repeat keeps_step.
  - destruct (RockerfileAstToString _) as [content|err]; simpl; [|repeat keeps_step].
    destruct (buildAndInspect _ _ _ _) as [st3 err] eqn:Hbuild. simpl.
    change st3 with (fst (st3, err)). rewrite <- Hbuild.
    eapply keeps_trans; [|apply buildAndInspect_keeps]. repeat keeps_step.
Qed.

Lemma emit_all_ensureCalls ids : forall st,
  ensureCalls (log (foldl (fun s id => emit (EInspectImage id) s) st ids))
  = ensureCalls (log st).
Proof.
  induction ids as [|id ids IH]; intros st; [done|].
  simpl. rewrite IH. unfold emit. simpl. rewrite ensureCalls_snoc. simpl. lia.
Qed.

Lemma imageGetCached_keeps sched imageID config st :
  keeps st (fst (imageGetCached sched imageID config st)).
Proof.
  destruct (imageGetCached_builder sched imageID config st) as [Hb _].
  unfold keeps. rewrite Hb. split_and!; [done|done|].
  unfold imageGetCached.
  destruct (ListImages Docker (log st)) as [images|err]; simpl.
  - case_decide; simpl.
    + rewrite ensureCalls_snoc. simpl. lia.
    + rewrite emit_all_ensureCalls. simpl. rewrite ensureCalls_snoc. simpl. lia.
  - rewrite ensureCalls_snoc. simpl. lia.
Qed.

Lemma probeCache_fields sched st :
  (cacheBusted (builder st) = true ->
   cacheBusted (builder (fst (probeCache sched st))) = true)
  /\ exportsContainerID (builder (fst (probeCache sched st))) = exportsContainerID (builder st)
  /\ ensureCalls (log (fst (probeCache sched st))) = ensureCalls (log st).
Proof.
  unfold probeCache.
  pose proof (imageGetCached_keeps sched (imageID (builder st)) (draft st) st)
    as (Hc & He & Hn).
  unfold draft in *.
  destruct (negb (UtilizeCache (builder st)) || cacheBusted (builder st)); [done|].
  destruct (imageGetCached sched (imageID (builder st))
              (readConfig (heap st) (Config (builder st))) st) as [st1 [[cache|]|err]];
    simpl in *; unfold_state; rewrite ?ensureCalls_snoc; simpl;
    split_and!; try congruence; try lia; done.
Qed.

Lemma checkDockerignore_keeps st : keeps st (fst (checkDockerignore st)).
Proof.
  unfold checkDockerignore.
  destruct (negb (fileExists FS (log st) _)); simpl; [repeat keeps_step|].
  destruct (openFile FS _ _) as [[lines scanErr]|err]; simpl; [|repeat keeps_step].
  destruct (foldl scanLine _ lines) as [[newLines missing] git].
  destruct scanErr as [err|]; simpl; [repeat keeps_step|].
  case_decide; simpl; repeat keeps_step.
Qed.

Lemma ensureImage_keeps imageName purpose st :
  keeps st (fst (ensureImage imageName purpose st)).
Proof.
  unfold ensureImage.
  destruct (InspectImage Docker (log st) imageName) as [image|err]; simpl;
    [repeat keeps_step|].
  case_decide; simpl; [|repeat keeps_step].
  destruct (PullImage Docker _ _ _) as [out pullErr].
  destruct (DisplayJSONMessagesStream out); [|destruct pullErr]; simpl; repeat keeps_step.
Qed.

Lemma pushImage_keeps image st : keeps st (fst (pushImage image st)).
Proof.
  unfold pushImage.
  destruct (PushImage Docker _ _ _) as [out pushErr].
  destruct (DisplayJSONMessagesStream out); [|destruct pushErr]; simpl; repeat keeps_step.
Qed.

Lemma makeExportsContainer_set st :
  exportsContainerID (builder st) <> "" ->
  makeExportsContainer st = (st, Ok (exportsContainerID (builder st))).
Proof. intros Hset. unfold makeExportsContainer. by rewrite decide_True. Qed.

Lemma makeExportsContainer_cacheBusted st :
  cacheBusted (builder (fst (makeExportsContainer st))) = cacheBusted (builder st).
Proof.
  unfold makeExportsContainer. case_decide; [done|].
  destruct (ensureContainer _ _ _ _); done.
Qed.

(** What no session undoes: a cache that is busted stays busted, and an
    export container that is set stays the same, with no further
    container-creation call. *)
Lemma exec_frame p : forall st,
  (cacheBusted (builder st) = true -> cacheBusted (builder (exec p st)) = true)
  /\ (exportsContainerID (builder st) <> "" ->
      exportsContainerID (builder (exec p st)) = exportsContainerID (builder st)
      /\ ensureCalls (log (exec p st)) = ensureCalls (log st)).
Proof.
  induction p as [|p IHp q IHq| | | | | |fn IH| | | | |]; intros st; simpl.
  - done.
  - destruct (IHp st) as [Hc He]. destruct (IHq (exec p st)) as [Hc' He'].
    split; [auto|]. intros Hset. destruct (He Hset) as [Hid Hn].
    destruct He' as [Hid' Hn']; [congruence|]. split; congruence.
  - destruct (checkDockerignore_keeps st) as (-> & -> & ->). done.
  - destruct (runDockerfile_keeps st) as (-> & -> & ->). done.
  - destruct (addLabels_keeps labels st) as (-> & -> & ->). done.
  - done.
  - done.
  - apply IH.
  - done.
  - destruct (probeCache_fields sched st) as (Hc & -> & ->). done.
  - destruct (ensureImage_keeps imageName purpose st) as (-> & -> & ->). done.
  - destruct (pushImage_keeps image st) as (-> & -> & ->). done.
  - rewrite makeExportsContainer_cacheBusted. split; [done|].
    intros Hset. by rewrite makeExportsContainer_set.
Qed.

(** On a hit the session's image identity advances to the identity of the
    image that [imageGetCached] selected. *)
Lemma probeCache_hit sched st st1 cache :
  UtilizeCache (builder st) = true ->
  cacheBusted (builder st) = false ->
  imageGetCached sched (imageID (builder st)) (draft st) st = (st1, Ok (Some cache)) ->
  snd (probeCache sched st) = (true, None)
  /\ imageID (builder (fst (probeCache sched st))) = docker.ID cache.
Proof.
  intros Hon Hunset Hcached. unfold probeCache, draft in *.
  rewrite Hon, Hunset, Hcached. done.
Qed.

(** ** The cache flags *)

(** C4. Once the session is cache-busted, whatever the session does next
    the flag stays set and a call of [probeCache] returns [(false, nil)]
    and leaves the state, log included, as it is: no call reaches the
    engine. The same holds when caching is disabled. The flag is set by a
    probe that, with caching enabled, returns a miss. *)
Theorem cacheBusted_is_sticky p sched st :
  cacheBusted (builder st) = true ->
  cacheBusted (builder (exec p st)) = true
  /\ probeCache sched (exec p st) = (exec p st, (false, None))
  /\ (forall st0, UtilizeCache (builder st0) = false ->
                  probeCache sched st0 = (st0, (false, None)))
  /\ (forall st0, UtilizeCache (builder st0) = true ->
                  snd (probeCache sched st0) = (false, None) ->
                  cacheBusted (builder (fst (probeCache sched st0))) = true).
Proof.
  intros Hbusted.
  destruct (exec_frame p st) as [Hc _]. specialize (Hc Hbusted).
  split_and!.
  - exact Hc.
  - unfold probeCache. rewrite Hc. by rewrite orb_true_r.
  - intros st0 Hoff. unfold probeCache. by rewrite Hoff.
  - intros st0 Hon. unfold probeCache. rewrite Hon. simpl.
    destruct (cacheBusted (builder st0)) eqn:Hb; [done|].
    destruct (imageGetCached sched (imageID (builder st0))
                (readConfig (heap st0) (Config (builder st0))) st0)
      as [st1 [[cache|]|err]]; simpl; done.
Qed.

(** C10. When [probeCache] returns an error it returns [false] with it and
    the builder and its heap are as before the call: the session is not
    marked cache-busted and its image identity is the same. The flag goes
    from unset to set only when the probe returns [(false, nil)] after
    [imageGetCached] found no match and no error. *)
Theorem probeCache_error_leaves_session sched st st' hit err :
  probeCache sched st = (st', (hit, Some err)) ->
  hit = false
  /\ builder st' = builder st
  /\ heap st' = heap st
  /\ cacheBusted (builder st') = false
  /\ imageID (builder st') = imageID (builder st)
  /\ (forall sched0 st0,
        cacheBusted (builder st0) = false ->
        cacheBusted (builder (fst (probeCache sched0 st0))) = true ->
        snd (probeCache sched0 st0) = (false, None)
        /\ snd (imageGetCached sched0 (imageID (builder st0)) (draft st0) st0) = Ok None).
Proof.
  intros Hprobe. unfold probeCache in Hprobe.
  pose proof (imageGetCached_builder sched (imageID (builder st)) (draft st) st) as [Hb Hh].
  unfold draft in *.
  destruct (UtilizeCache (builder st)); simpl in Hprobe; [|congruence].
  destruct (cacheBusted (builder st)) eqn:Hbusted; [congruence|].
  destruct (imageGetCached sched (imageID (builder st))
              (readConfig (heap st) (Config (builder st))) st)
    as [st1 [[cache|]|err1]]; simpl in *; [congruence|congruence|].
  injection Hprobe as <- <- <-.
  split_and!; try congruence.
  intros sched0 st0 Hunset Hset. unfold probeCache in *.
  pose proof (imageGetCached_builder sched0 (imageID (builder st0)) (draft st0) st0) as [Hb0 _].
  unfold draft in *.
  destruct (UtilizeCache (builder st0)); simpl in *; [|congruence].
  rewrite Hunset in *.
  destruct (imageGetCached sched0 (imageID (builder st0))
              (readConfig (heap st0) (Config (builder st0))) st0)
    as [st2 [[cache|]|err2]]; simpl in *; unfold_state; split; congruence.
Qed.

(** ** The export container *)

(** C8. After a call of [makeExportsContainer] that returned an
    identifier, with at most one container-creation call, every later call
    in the session returns that identifier and leaves the state, log
    included, as it is: the engine is not contacted again. The identifier
    of a container is not empty. *)
Theorem makeExportsContainer_memoized p st st1 id :
  makeExportsContainer st = (st1, Ok id) ->
  id <> "" ->
  (ensureCalls (log st1) <= S (ensureCalls (log st)))%nat
  /\ makeExportsContainer st1 = (st1, Ok id)
  /\ makeExportsContainer (exec p st1) = (exec p st1, Ok id)
  /\ ensureCalls (log (exec p st1)) = ensureCalls (log st1).
Proof.
  intros Hcall Hid.
  assert (Hset : exportsContainerID (builder st1) = id
                 /\ (ensureCalls (log st1) <= S (ensureCalls (log st)))%nat).
  { unfold makeExportsContainer in Hcall.
    destruct (decide (exportsContainerID (builder st) <> "")).
    - injection Hcall as <- <-. split; [done|lia].
    - destruct (ensureContainer (log st) (exportsContainerName (builder st))
                  (exportsConfig (builder st)) "exports") as [container|err];
        [|discriminate].
      injection Hcall as <- <-. unfold_state. split; [done|].
      rewrite ensureCalls_snoc. simpl. lia. }
  destruct Hset as [Hset Hcount].
  destruct (exec_frame p st1) as [_ He].
  destruct He as [Hid' Hn]; [congruence|].
  split_and!; [exact Hcount| | |exact Hn].
  - rewrite makeExportsContainer_set by congruence. by rewrite Hset.
  - rewrite makeExportsContainer_set by congruence. by rewrite Hid', Hset.
Qed.

(** ** The build driver *)

(** C9. With no pending instruction [runDockerfile] returns [nil] and the
    state after it is the state before it: builder, heap and log. *)
Theorem runDockerfile_empty_is_noop st :
  Children (dockerfile (builder st)) = [] ->
  runDockerfile st = (st, Returned None).
Proof. intros Hempty. unfold runDockerfile. by rewrite Hempty. Qed.

(** *** The pattern of [captureImageID] *)

Lemma stripPrefix_spec lit : forall s rest,
  stripPrefix lit s = Some rest <-> s = lit +:+ rest.
Proof.
  induction lit as [|a lit IH]; intros s rest; simpl.
  - split; [intros [= ->]|intros ->]; done.
  - destruct s as [|b s]; [split; discriminate|].
    case_decide as Hab.
    + subst b. rewrite IH. split; [intros ->|intros [= ->]]; done.
    + split; [discriminate|]. intros [= ? ?]. done.
Qed.

Lemma takeClass_spec cls n : forall s g,
  takeClass cls n s = Some g <->
  exists rest, s = g +:+ rest /\ String.length g = n /\ stringAll cls g = true.
Proof.
  induction n as [|n IH]; intros s g; simpl.
  - split.
    + intros [= <-]. by exists s.
    + intros (rest & _ & Hlen & _). destruct g; [done|discriminate].
  - destruct s as [|c s].
    + split; [discriminate|]. intros (rest & Hs & Hlen & _).
      destruct g; discriminate.
    + destruct (cls c) eqn:Hc.
      * destruct (takeClass cls n s) as [t|] eqn:Ht.
        -- apply IH in Ht as (rest & -> & Hlen & Hall). split.
           ++ intros [= <-]. exists rest. simpl. rewrite Hc, Hlen, Hall. done.
           ++ intros (rest' & Hs & Hlen' & Hall'). destruct g as [|c' g]; [discriminate|].
              simpl in *. injection Hs as <- Hs. injection Hlen' as Hlen'.
              apply andb_prop in Hall' as [_ Hall'].
              assert (Hg : takeClass cls n (t +:+ rest) = Some g).
              { apply IH. exists rest'. done. }
              assert (Ht : takeClass cls n (t +:+ rest) = Some t).
              { apply IH. exists rest. done. }
              congruence.
        -- split; [discriminate|]. intros (rest' & Hs & Hlen' & Hall').
           destruct g as [|c' g]; [discriminate|]. simpl in *.
           injection Hs as <- Hs. injection Hlen' as Hlen'.
           apply andb_prop in Hall' as [_ Hall'].
           assert (Hg : takeClass cls n s = Some g) by (apply IH; by exists rest').
           congruence.
      * split; [discriminate|]. intros (rest' & Hs & Hlen' & Hall').
        destruct g as [|c' g]; [discriminate|]. simpl in *.
        injection Hs as <- Hs. apply andb_prop in Hall' as [Hc' _]. congruence.
Qed.

Lemma matchHere_spec lit cls n s g :
  matchHere lit cls n s = Some g <->
  exists post, s = lit +:+ g +:+ post /\ String.length g = n /\ stringAll cls g = true.
Proof.
  unfold matchHere. destruct (stripPrefix lit s) as [rest|] eqn:Hstrip.
  - apply stripPrefix_spec in Hstrip as ->. rewrite takeClass_spec.
    split; intros (post & Hs & Hrest); exists post; split; try done.
    + by rewrite Hs.
    + by apply (inj (String.append lit)) in Hs.
  - split; [discriminate|]. intros (post & -> & _).
    assert (Hsome : stripPrefix lit (lit +:+ g +:+ post) = Some (g +:+ post))
      by by apply stripPrefix_spec.
    congruence.
Qed.

(** A match that [findSubmatch] returns is an occurrence of the pattern. *)
Lemma findSubmatch_sound lit cls n : forall s g,
  findSubmatch lit cls n s = Some g ->
  exists pre post,
    s = pre +:+ lit +:+ g +:+ post /\ String.length g = n /\ stringAll cls g = true.
Proof.
  induction s as [|c s IH]; intros g; simpl.
  - destruct (matchHere lit cls n "") as [g'|] eqn:Hhere; [|discriminate].
    intros [= <-]. apply matchHere_spec in Hhere as (post & Hs & Hg).
    by exists "", post.
  - destruct (matchHere lit cls n (String c s)) as [g'|] eqn:Hhere.
    + intros [= <-]. apply matchHere_spec in Hhere as (post & Hs & Hg).
      by exists "", post.
    + intros Hfind. apply IH in Hfind as (pre & post & -> & Hg).
      by exists (String c pre), post.
Qed.

(** An occurrence of the pattern anywhere makes [findSubmatch] succeed. *)
Lemma findSubmatch_complete lit cls n g post : forall pre,
  String.length g = n -> stringAll cls g = true ->
  is_Some (findSubmatch lit cls n (pre +:+ lit +:+ g +:+ post)).
Proof.
  intros pre Hlen Hall.
  assert (Hhere : matchHere lit cls n (lit +:+ g +:+ post) = Some g)
    by (apply matchHere_spec; by exists post).
  induction pre as [|c pre IH]; simpl.
  - destruct (lit +:+ g +:+ post); simpl; rewrite Hhere; done.
  - destruct (matchHere lit cls n (String c (pre +:+ lit +:+ g +:+ post))); [done|].
    exact IH.
Qed.

(** C5, as the code has it. Once the Dockerfile is written and the build
    and its display have ended without error, [runDockerfile] goes on to
    inspect the captured identifier when the output matches the pattern
    and returns the error [errNoImageID] when it does not; the output
    matches exactly when it contains [Successfully built ] followed by
    twelve characters that are each a lower-case letter or a digit, and the
    identifier is twelve such characters after that text. *)
Theorem image_id_capture name path content st out :
  writeFile FS (log st) path content = None ->
  BuildImage Docker (log (emit (EWriteFile path content) st))
    (mkBuildImageOptions name (ContextDir (builder st))
       (negb (UtilizeCache (builder st))) (Auth (builder st))) = (out, None) ->
  DisplayJSONMessagesStream out = None ->
  let opts := mkBuildImageOptions name (ContextDir (builder st))
                (negb (UtilizeCache (builder st))) (Auth (builder st)) in
  let st2 := emit (EDisplay out) (emit (EBuildImage opts) (emit (EWriteFile path content) st)) in
  buildAndInspect name path content st =
    match captureImageID out with
    | None => (emit (ERemove path) st2, Some errNoImageID)
    | Some imageID => inspectBuilt imageID path st2
    end
  /\ (is_Some (captureImageID out) <->
      exists pre imageID post,
        out = pre +:+ "Successfully built " +:+ imageID +:+ post
        /\ String.length imageID = 12 /\ stringAll isLowerAlnum imageID = true)
  /\ (forall imageID, captureImageID out = Some imageID ->
        exists pre post,
          out = pre +:+ "Successfully built " +:+ imageID +:+ post
          /\ String.length imageID = 12 /\ stringAll isLowerAlnum imageID = true).
Proof.
  intros Hwrite Hbuild Hdisplay opts st2. split_and!.
  - unfold buildAndInspect. rewrite Hwrite. fold opts. subst opts.
    rewrite Hbuild, Hdisplay. done.
  - unfold captureImageID. split.
    + intros [imageID Hfind].
      apply findSubmatch_sound in Hfind as (pre & post & Hout).
      by exists pre, imageID, post.
    + intros (pre & imageID & post & -> & Hlen & Hall).
      by apply findSubmatch_complete.
  - intros imageID Hfind. by apply findSubmatch_sound in Hfind.
Qed.

(** ** Image acquisition *)

(** C6, as the code has it. The error that names the identifier comes from
    [runDockerfile]: when the engine answers [no such image] to the
    inspection of the image just built, the error is [No such image: ]
    followed by the identifier. [ensureImage] answers [no such image] with
    a pull: its error is then that of the display of the pull or of the
    pull, and [nil] when both succeed. *)
Theorem no_such_image_is_named_by_runDockerfile imageID path st imageName purpose st' :
  InspectImage Docker (log st) imageID = Err "no such image" ->
  InspectImage Docker (log st') imageName = Err "no such image" ->
  snd (inspectBuilt imageID path st) = Some ("No such image: " +:+ imageID)
  /\ let image := NewFromString imageName in
     let pullOpts :=
       mkPullImageOptions (NameWithRegistry image) (Registry image) (GetTag image) in
     let pulling :=
       log st' ++ [EInspectImage imageName;
                   EOutput ("[Rocker] Pulling image: " +:+ imageName +:+ " for "
                            +:+ purpose +:+ nl)] in
     let answer := PullImage Docker pulling pullOpts (Auth (builder st')) in
     EPullImage pullOpts (Auth (builder st')) ∈ log (fst (ensureImage imageName purpose st'))
     /\ snd (ensureImage imageName purpose st') =
        match DisplayJSONMessagesStream (fst answer), snd answer with
        | Some err, _ =>
            Some ("Failed to process json stream for image: "
                  +:+ imageString image +:+ ", error: " +:+ err)
        | None, Some err =>
            Some ("Failed to pull image: " +:+ imageString image +:+ ", error: " +:+ err)
        | None, None => None
        end.
Proof.
  intros Hbuilt Hensure. split.
  - unfold inspectBuilt. rewrite Hbuilt. by rewrite decide_True.
  - assert (Hlog : forall e1 e2 s, log (emit e2 (emit e1 s)) = log s ++ [e1; e2])
      by (intros; unfold emit; simpl; by rewrite <- app_assoc).
    unfold ensureImage. rewrite Hensure. rewrite decide_True by done.
    cbv zeta. rewrite Hlog.
    destruct (PullImage Docker _ _ _) as [out pullErr].
    destruct (DisplayJSONMessagesStream out) as [err|] eqn:Hdisplay;
      [|destruct pullErr as [err|]]; cbn [fst snd]; rewrite ?Hdisplay;
      (split; [|reflexivity]); unfold emit; cbn [log];
      apply elem_of_app; left; apply elem_of_app; right; apply list_elem_of_here.
Qed.

(** ** The configuration overlay *)

(** The closure of [temporaryCmd] puts the command back, whatever happened
    to the state in between. *)
Lemma temporaryCmd_restores_command cmd st st' :
  docker.Cmd (Config (builder (snd (temporaryCmd cmd st) st')))
  = docker.Cmd (Config (builder st)).
Proof. reflexivity. Qed.

(** The closure of [temporaryConfig] puts the struct back: every field, the
    references to the maps among them. *)
Lemma temporaryConfig_restores_struct fn st st' :
  Config (builder (snd (temporaryConfig fn st) st')) = Config (builder st).
Proof. reflexivity. Qed.



(** ** Further properties of the overlay *)

(** The draft after [addLabels]: the label map is never nil and holds the
    given labels over the prior ones; nothing else changes. *)
Lemma addLabels_draft labels st :
  wellFormed st ->
  draft (addLabels labels st)
  = docker.mkConfigData (docker.dCmd (draft st)) (docker.dEntrypoint (draft st))
      (docker.dEnv (draft st)) (docker.dImage (draft st)) (docker.dVolumes (draft st))
      (Some (labels ∪ default ∅ (docker.dLabels (draft st)))).
Proof.
  intros [Hlabels _]. unfold draft, addLabels, readConfig, allocLabels, storeLabels.
  destruct st as [[[cmd entry env image vol [l|]] id df uc cb gi ms ams ex rf cd au]
                    [labs vols] lg];
    simpl in *; unfold loc in *.
  - specialize (Hlabels l eq_refl).
    destruct (lookup_lt_is_Some_2 labs l Hlabels) as [old Hold].
    rewrite Hold. simpl. rewrite storeAll_union.
    by rewrite list_lookup_insert_eq.
  - rewrite storeAll_union.
    rewrite list_lookup_insert_eq by (rewrite length_app; simpl; lia).
    by rewrite list_lookup_middle.
Qed.

Lemma addLabels_wellFormed labels st : wellFormed st -> wellFormed (addLabels labels st).
Proof.
  intros [Hlabels Hvolumes]. unfold wellFormed, addLabels, allocLabels, storeLabels.
  destruct st as [[[cmd entry env image vol [l|]] id df uc cb gi ms ams ex rf cd au]
                    [labs vols] lg];
    simpl in *; unfold loc in *.
  - split.
    + intros l' [= <-]. rewrite length_insert. by apply Hlabels.
    + exact Hvolumes.
  - split.
    + intros l' [= <-]. rewrite length_insert, length_app. simpl. lia.
    + exact Hvolumes.
Qed.

(** X1. addLabels merges: a key of [labels] reads as [labels] gives it, any
    other key as before, and the command, environment, image and volumes of
    the draft are untouched. *)
Theorem addLabels_merges labels st k :
  wellFormed st ->
  (docker.dLabels (draft (addLabels labels st)) ≫= (.!! k))
  = match labels !! k with
    | Some v => Some v
    | None => docker.dLabels (draft st) ≫= (.!! k)
    end
  /\ is_Some (docker.dLabels (draft (addLabels labels st)))
  /\ docker.dCmd (draft (addLabels labels st)) = docker.dCmd (draft st)
  /\ docker.dEntrypoint (draft (addLabels labels st)) = docker.dEntrypoint (draft st)
  /\ docker.dEnv (draft (addLabels labels st)) = docker.dEnv (draft st)
  /\ docker.dImage (draft (addLabels labels st)) = docker.dImage (draft st)
  /\ docker.dVolumes (draft (addLabels labels st)) = docker.dVolumes (draft st).
Proof.
  intros Hwf. rewrite (addLabels_draft labels st Hwf).
  cbn [docker.dLabels docker.dCmd docker.dEntrypoint docker.dEnv docker.dImage
       docker.dVolumes].
  set (old := default ∅ (docker.dLabels (draft st))).
  split_and!; try done.
  change ((labels ∪ old) !! k
          = match labels !! k with
            | Some v => Some v
            | None => docker.dLabels (draft st) ≫= (.!! k)
            end).
  rewrite lookup_union.
  destruct (labels !! k) as [v|] eqn:Hk.
  - by destruct (old !! k).
  - rewrite (left_id None _). subst old. by destruct (docker.dLabels (draft st)).
Qed.

(** X2. Two calls of addLabels are one call with the second mapping over the
    first: later labels overwrite earlier ones for the same key. *)
Theorem addLabels_twice first second st :
  wellFormed st ->
  draft (addLabels second (addLabels first st)) = draft (addLabels (second ∪ first) st).
Proof.
  intros Hwf.
  rewrite (addLabels_draft second _ (addLabels_wellFormed first st Hwf)).
  rewrite !(addLabels_draft _ st Hwf). simpl.
  by rewrite (assoc_L (∪)).
Qed.

(** X3. The loop of addLabels gives the same map in whatever order it meets
    the entries of [labels]. *)
Theorem storeAll_any_order labels old kvs :
  kvs ≡ₚ map_to_list labels ->
  foldr (fun kv m => <[kv.1 := kv.2]> m) old kvs = storeAll labels old.
Proof.
  intros Hperm. rewrite storeAll_union.
  assert (Hfold : forall l, foldr (fun kv m => <[kv.1 := kv.2]> m) old l
                            = (list_to_map l : gmap string string) ∪ old).
  { induction l as [|[k v] l IH]; simpl.
    - by rewrite (left_id ∅ (∪)).
    - by rewrite IH, insert_union_l. }
  rewrite Hfold. f_equal.
  rewrite <- (list_to_map_to_list labels).
  apply list_to_map_proper; [|exact Hperm].
  rewrite Hperm. apply NoDup_fst_map_to_list.
Qed.

(** X4. temporaryCmd: inside the scope the command is the given one and no
    other field of the draft or of the builder differs; running the closure
    right after gives back the state before the call. *)
Theorem temporaryCmd_round_trip cmd st :
  docker.Cmd (Config (builder (fst (temporaryCmd cmd st)))) = cmd
  /\ set_Cmd (docker.Cmd (Config (builder st))) (Config (builder (fst (temporaryCmd cmd st))))
     = Config (builder st)
  /\ snd (temporaryCmd cmd st) (fst (temporaryCmd cmd st)) = st.
Proof.
  destruct st as [[[c e v i vol lab] id df uc cb gi ms ams ex rf cd au] h lg].
  split_and!; reflexivity.
Qed.


(** ** Further properties of the mounts *)

(** X7. getMountContainerIds holds exactly the non-empty container ids of the
    active mounts (once each: it is a set). *)
Theorem getMountContainerIds_spec b id :
  id ∈ getMountContainerIds b <-> id <> "" /\ exists m, m ∈ mounts b /\ containerID m = id.
Proof.
  unfold getMountContainerIds, containerIds.
  rewrite elem_of_list_to_set, list_elem_of_filter, list_elem_of_fmap.
  split; intros [Hne (m & Hid & Hm)]; (split; [done|]); by exists m.
Qed.

(** X8. getAllMountContainerIds holds exactly the non-empty container ids of
    all the mounts of the session. *)
Theorem getAllMountContainerIds_spec b id :
  id ∈ getAllMountContainerIds b
  <-> id <> "" /\ exists m, m ∈ allMounts b /\ containerID m = id.
Proof.
  unfold getAllMountContainerIds, containerIds.
  rewrite elem_of_list_to_set, list_elem_of_filter, list_elem_of_fmap.
  split; intros [Hne (m & Hid & Hm)]; (split; [done|]); by exists m.
Qed.

(** X9. getBinds lists [src:dest] for exactly the host binds among the active
    mounts, in their order; a mount on a container gives no bind. *)
Theorem getBinds_spec b :
  getBinds b
  = (fun m => src m +:+ ":" +:+ dest m) <$> filter (fun m => containerID m = "") (mounts b)
  /\ (forall bind, bind ∈ getBinds b <->
        exists m, m ∈ mounts b /\ containerID m = "" /\ bind = src m +:+ ":" +:+ dest m)
  /\ (length (getBinds b) + length (filter (fun m => containerID m <> "") (mounts b))
      = length (mounts b))%nat.
Proof.
  split_and!; [reflexivity| |].
  - intros bind. unfold getBinds. rewrite list_elem_of_fmap. split.
    + intros (m & -> & Hm). apply list_elem_of_filter in Hm as [Hhost Hm]. by exists m.
    + intros (m & Hm & Hhost & ->). exists m. split; [done|].
      by apply list_elem_of_filter.
  - unfold getBinds. rewrite length_fmap.
    induction (mounts b) as [|m ms IH]; [done|].
    destruct (decide (containerID m = "")) as [Hhost|Hcont].
    + rewrite filter_cons_True, filter_cons_False by (done || naive_solver).
      simpl. lia.
    + rewrite filter_cons_False, filter_cons_True by done. simpl. lia.
Qed.

(** ** Further properties of checkDockerignore *)

(** Forgets the collaborators a statement does not mention. *)
Ltac forget_collaborators := repeat match goal with H : _ |- _ => clear H end.

Lemma filter_all : forall (P : string -> Prop) `{forall x, Decision (P x)} (l : list string),
  (forall x, x ∈ l -> P x) -> filter P l = l.
Proof.
  forget_collaborators. intros P Hdec l.
  induction l as [|z l IH]; intros Hall; [done|].
  rewrite filter_cons_True by apply Hall, list_elem_of_here.
  rewrite IH; [done|]. intros x Hx. by apply Hall, list_elem_of_further.
Qed.

Lemma filter_none : forall (P : string -> Prop) `{forall x, Decision (P x)} (l : list string),
  (forall x, x ∈ l -> ~ P x) -> filter P l = [].
Proof.
  forget_collaborators. intros P Hdec l.
  induction l as [|z l IH]; intros Hall; [done|].
  rewrite filter_cons_False by apply Hall, list_elem_of_here.
  apply IH. intros x Hx. by apply Hall, list_elem_of_further.
Qed.

Lemma removeFirst_elem : forall x y l, y ∈ removeFirst x l -> y ∈ l.
Proof.
  forget_collaborators. intros x y l.
  induction l as [|z l IH]; simpl; [done|].
  destruct (decide (z = x)) as [_|_]; intros Hy.
  - by apply list_elem_of_further.
  - apply elem_of_cons in Hy as [->|Hy];
      [apply list_elem_of_here|by apply list_elem_of_further, IH].
Qed.

Lemma removeFirst_other : forall x y l, y ∈ l -> y <> x -> y ∈ removeFirst x l.
Proof.
  forget_collaborators. intros x y l.
  induction l as [|z l IH]; simpl; [done|].
  intros Hy Hne. apply elem_of_cons in Hy as [->|Hy].
  - rewrite decide_False by done. apply list_elem_of_here.
  - destruct (decide (z = x)) as [_|_]; [done|]. by apply list_elem_of_further, IH.
Qed.

Lemma removeFirst_NoDup : forall x l,
  NoDup l -> removeFirst x l = filter (fun y => y <> x) l.
Proof.
  forget_collaborators. intros x l.
  induction 1 as [|z l Hz Hl IH]; simpl; [done|].
  destruct (decide (z = x)) as [->|Hzx].
  - rewrite filter_cons_False by (intros Hne; by apply Hne).
    symmetry. apply filter_all. intros y Hy ->. done.
  - by rewrite filter_cons_True, IH.
Qed.

Lemma scan_fold lines : forall newLines ignoreLines git,
  foldl scanLine (newLines, ignoreLines, git) lines
  = (newLines ++ lines, stillMissing ignoreLines lines,
     git || bool_decide (".git" ∈ lines)).
Proof.
  revert lines. forget_collaborators. intros lines.
  unfold stillMissing.
  induction lines as [|line lines IH]; intros newLines ignoreLines git; simpl.
  - by rewrite app_nil_r, orb_false_r.
  - rewrite IH, <- app_assoc. simpl. f_equal.
    destruct (decide (line = ".git")) as [->|Hgit].
    + rewrite (bool_decide_true (".git" ∈ ".git" :: lines)) by apply list_elem_of_here.
      by rewrite orb_true_r.
    + destruct (decide (".git" ∈ lines)) as [Hin|Hnotin].
      * rewrite (bool_decide_true (".git" ∈ lines)) by done.
        by rewrite (bool_decide_true (".git" ∈ line :: lines))
          by by apply list_elem_of_further.
      * rewrite (bool_decide_false (".git" ∈ lines)) by done.
        rewrite (bool_decide_false (".git" ∈ line :: lines)); [done|].
        intros Hin. apply elem_of_cons in Hin as [Heq|Hin]; [by apply Hgit|done].
Qed.

Lemma stillMissing_sub lines : forall ignoreLines x,
  x ∈ stillMissing ignoreLines lines -> x ∈ ignoreLines.
Proof.
  unfold stillMissing.
  induction lines as [|line lines IH]; intros ignoreLines x; simpl; [done|].
  intros Hx. apply IH in Hx. by apply removeFirst_elem in Hx.
Qed.

Lemma stillMissing_covers lines : forall ignoreLines x,
  x ∈ ignoreLines -> x ∈ lines \/ x ∈ stillMissing ignoreLines lines.
Proof.
  unfold stillMissing.
  induction lines as [|line lines IH]; intros ignoreLines x Hx; simpl; [by right|].
  destruct (decide (x = line)) as [->|Hne]; [left; apply list_elem_of_here|].
  destruct (IH (removeFirst line ignoreLines) x) as [Hin|Hin].
  - by apply removeFirst_other.
  - left. by apply list_elem_of_further.
  - by right.
Qed.

Lemma stillMissing_NoDup lines : forall ignoreLines,
  NoDup ignoreLines ->
  stillMissing ignoreLines lines = filter (fun x => x ∉ lines) ignoreLines.
Proof.
  revert lines. forget_collaborators. intros lines.
  unfold stillMissing.
  induction lines as [|line lines IH]; intros ignoreLines Hnodup; simpl.
  - symmetry. apply filter_all. intros x _ Hx. inversion Hx.
  - rewrite IH by (rewrite removeFirst_NoDup by done; by apply NoDup_filter).
    rewrite removeFirst_NoDup by done. rewrite list_filter_filter.
    apply list_filter_iff. intros x. rewrite elem_of_cons. split.
    + intros [Hnot Hne] [Heq|Hin]; [by apply Hne|by apply Hnot].
    + intros Hnot. split; [intros Hin|intros Heq]; apply Hnot; [by right|by left].
Qed.

(** X10. The scanner loop keeps every line it reads, in order; what it leaves
    of the required lines are required lines, and every required line was
    read or is left; when the required lines are distinct, what is left is
    exactly those that the file does not hold; [.git] among the lines is
    remembered. *)
Theorem scan_finds_the_missing_lines ignoreLines git lines :
  let '(newLines, missing, git') := foldl scanLine ([], ignoreLines, git) lines in
  newLines = lines
  /\ (forall x, x ∈ missing -> x ∈ ignoreLines)
  /\ (forall x, x ∈ ignoreLines -> x ∈ lines \/ x ∈ missing)
  /\ (NoDup ignoreLines -> missing = filter (fun x => x ∉ lines) ignoreLines)
  /\ git' = git || bool_decide (".git" ∈ lines).
Proof.
  rewrite scan_fold. split_and!.
  - done.
  - apply stillMissing_sub.
  - apply stillMissing_covers.
  - apply stillMissing_NoDup.
  - done.
Qed.

(** What checkDockerignore does with a file that exists and is read
    without error. *)
Lemma checkDockerignore_existing st lines :
  fileExists FS (log st) (dockerignoreFile (builder st)) = true ->
  openFile FS (log (emit (EStat (dockerignoreFile (builder st))) st))
    (dockerignoreFile (builder st)) = Ok (lines, None) ->
  let file := dockerignoreFile (builder st) in
  let missing := stillMissing (requiredLines (builder st)) lines in
  let git := gitIgnored (builder st) || bool_decide (".git" ∈ lines) in
  let st3 := with_builder (set_gitIgnored git) (emit (EOpen file) (emit (EStat file) st)) in
  checkDockerignore st
  = if decide (0 < length missing)%nat then
      let st4 := emit (EOutput ("[Rocker] Add " +:+ pretty (length missing)
                                +:+ " lines to .dockerignore" +:+ nl)) st3 in
      let content := join nl (lines ++ missing) +:+ nl in
      (emit (EWriteFile file content) st4, writeFile FS (log st4) file content)
    else (st3, None).
Proof.
  intros Hexists Hopen. unfold checkDockerignore.
  fold (requiredLines (builder st)). fold (dockerignoreFile (builder st)).
  rewrite Hexists. cbn [negb]. rewrite Hopen. rewrite scan_fold. done.
Qed.

(** X11. A file that already holds the required lines, these being distinct, is
    left alone: nothing is written, the call returns [nil] and the builder
    changes at most in [gitIgnored]. *)
Theorem checkDockerignore_complete_file_is_left_alone st lines :
  fileExists FS (log st) (dockerignoreFile (builder st)) = true ->
  openFile FS (log (emit (EStat (dockerignoreFile (builder st))) st))
    (dockerignoreFile (builder st)) = Ok (lines, None) ->
  NoDup (requiredLines (builder st)) ->
  (forall x, x ∈ requiredLines (builder st) -> x ∈ lines) ->
  snd (checkDockerignore st) = None
  /\ log (fst (checkDockerignore st))
     = log st ++ [EStat (dockerignoreFile (builder st));
                  EOpen (dockerignoreFile (builder st))]
  /\ builder (fst (checkDockerignore st))
     = set_gitIgnored (gitIgnored (builder st) || bool_decide (".git" ∈ lines))
         (builder st).
Proof.
  intros Hexists Hopen Hnodup Hall.
  rewrite (checkDockerignore_existing st lines Hexists Hopen). cbv zeta.
  rewrite stillMissing_NoDup by done.
  assert (Hnone : filter (fun x => x ∉ lines) (requiredLines (builder st)) = []).
  { apply filter_none. intros x Hx Hnot. by apply Hnot, Hall. }
  rewrite Hnone. rewrite decide_False by (simpl; lia).
  unfold with_builder, emit. simpl. split_and!; [done| |done].
  by rewrite <- app_assoc.
Qed.

(** X12. When lines are missing from a file that exists, checkDockerignore
    writes the lines it read, in their order, followed by the missing
    required lines: every required line is in what it writes, and its
    result is that of the write. *)
Theorem checkDockerignore_appends_the_missing_lines st lines x :
  fileExists FS (log st) (dockerignoreFile (builder st)) = true ->
  openFile FS (log (emit (EStat (dockerignoreFile (builder st))) st))
    (dockerignoreFile (builder st)) = Ok (lines, None) ->
  x ∈ requiredLines (builder st) ->
  x ∉ lines ->
  exists missing announce,
    log (fst (checkDockerignore st))
    = log st ++ [EStat (dockerignoreFile (builder st));
                 EOpen (dockerignoreFile (builder st));
                 EOutput announce;
                 EWriteFile (dockerignoreFile (builder st))
                   (join nl (lines ++ missing) +:+ nl)]
    /\ (forall y, y ∈ requiredLines (builder st) -> y ∈ lines ++ missing)
    /\ (forall y, y ∈ missing -> y ∈ requiredLines (builder st))
    /\ snd (checkDockerignore st)
       = writeFile FS (log st ++ [EStat (dockerignoreFile (builder st));
                                  EOpen (dockerignoreFile (builder st));
                                  EOutput announce])
           (dockerignoreFile (builder st)) (join nl (lines ++ missing) +:+ nl).
Proof.
  intros Hexists Hopen Hx Hnot.
  rewrite (checkDockerignore_existing st lines Hexists Hopen). cbv zeta.
  set (missing := stillMissing (requiredLines (builder st)) lines).
  assert (Hin : x ∈ missing).
  { destruct (stillMissing_covers lines _ x Hx) as [Hin|Hin]; [done|exact Hin]. }
  rewrite decide_True by (destruct missing; [inversion Hin|simpl; lia]).
  exists missing, ("[Rocker] Add " +:+ pretty (length missing)
                   +:+ " lines to .dockerignore" +:+ nl).
  unfold with_builder, emit. simpl. rewrite <- !app_assoc. simpl.
  split_and!; [done| | |done].
  - intros y Hy. apply elem_of_app.
    destruct (stillMissing_covers lines _ y Hy); [by left|by right].
  - intros y Hy. by apply stillMissing_sub in Hy.
Qed.

(** ** Further properties of runDockerfile *)


Lemma inspectBuilt_log imageID path st :
  log (fst (inspectBuilt imageID path st))
  = log st ++ [EInspectImage imageID; ERemove path].
Proof.
  unfold inspectBuilt.
  destruct (InspectImage Docker (log st) imageID) as [image|err].
  - destruct (newConfig _ _) as [cfg h]. simpl. by rewrite <- app_assoc.
  - simpl. by rewrite <- app_assoc.
Qed.


Lemma inspectBuilt_error imageID path st st' err :
  inspectBuilt imageID path st = (st', Some err) ->
  sameImage st st' /\ dockerfile (builder st') = dockerfile (builder st).
Proof.
  unfold inspectBuilt.
  destruct (InspectImage Docker (log st) imageID) as [image|err0].
  - destruct (newConfig _ _) as [cfg h]. discriminate.
  - intros [= <- _]. done.
Qed.

(** The ways [buildAndInspect] ends. *)
Lemma buildAndInspect_inv name path content st :
  let opts := mkBuildImageOptions name (ContextDir (builder st))
                (negb (UtilizeCache (builder st))) (Auth (builder st)) in
  let st1 := emit (EWriteFile path content) st in
  let out := fst (BuildImage Docker (log st1) opts) in
  let st2 := emit (EDisplay out) (emit (EBuildImage opts) st1) in
  (exists err, writeFile FS (log st) path content = Some err
               /\ buildAndInspect name path content st = (st1, Some err))
  \/ (writeFile FS (log st) path content = None
      /\ ((exists err, buildAndInspect name path content st
                       = (emit (ERemove path) st2, Some err))
          \/ (exists id, captureImageID out = Some id
                         /\ buildAndInspect name path content st
                            = inspectBuilt id path st2))).
Proof.
  intros opts st1 out st2. unfold buildAndInspect.
  destruct (writeFile FS (log st) path content) as [err|]; [left; by exists err|].
  right. split; [done|]. fold opts. fold st1. subst st2 out.
  destruct (BuildImage Docker (log st1) opts) as [out buildErr]. cbn [fst].
  destruct (DisplayJSONMessagesStream out) as [err|]; [left; by eexists|].
  destruct buildErr as [err|]; [left; by eexists|].
  destruct (captureImageID out) as [id|]; [right; by exists id|left; by eexists].
Qed.

(** The ways [runDockerfile] ends: with nothing pending; in a panic; or,
    the pending instructions normalised, in the error of the missing base
    image, in the error of the serialisation, or as [buildAndInspect]
    ends. *)
Lemma runDockerfile_inv st :
  runDockerfile st = (st, Returned None)
  \/ runDockerfile st = (st, Panicked)
  \/ exists children st2,
       builder st2
       = set_dockerfile (set_Children children (dockerfile (builder st))) (builder st)
       /\ heap st2 = heap st /\ log st2 = log st
       /\ (runDockerfile st = (st2, Returned (Some "Missing initial FROM instruction"))
           \/ (exists err, runDockerfile st = (st2, Returned (Some err))
                           /\ RockerfileAstToString (dockerfile (builder st2)) = Err err)
           \/ (exists content,
                 RockerfileAstToString (dockerfile (builder st2)) = Ok content
                 /\ runDockerfile st
                    = (fst (buildAndInspect (dockerfileName (builder st2))
                              (pathJoin (ContextDir (builder st2))
                                 (dockerfileName (builder st2))) content st2),
                       Returned (snd (buildAndInspect (dockerfileName (builder st2))
                                        (pathJoin (ContextDir (builder st2))
                                           (dockerfileName (builder st2)))
                                        content st2))))).
Proof.
  unfold runDockerfile.
  destruct (Children (dockerfile (builder st))) as [|first others]; [by left|].
  match goal with
  | |- context [match ?hack with Some _ => _ | None => _ end] =>
      destruct hack as [children1|]
  end; [|right; by left].
  right. right.
  destruct (decide (Value first <> "from")) as [Hfrom|Hfrom];
    [destruct (decide (imageID (builder st) = "")) as [Hid|Hid]|].
  - exists children1,
      (mkState (set_dockerfile (set_Children children1 (dockerfile (builder st)))
                  (builder st)) (heap st) (log st)).
    split_and!; [| | |left; reflexivity]; reflexivity.
  - exists (fromNode (imageID (builder st)) :: children1),
      (mkState (set_dockerfile
                  (set_Children (fromNode (imageID (builder st)) :: children1)
                     (dockerfile (builder st)))
                  (builder st)) (heap st) (log st)).
    split_and!; [reflexivity|reflexivity|reflexivity|].
    change (with_builder _ (with_builder _ st))
      with (mkState (set_dockerfile
                       (set_Children (fromNode (imageID (builder st)) :: children1)
                          (dockerfile (builder st)))
                       (builder st)) (heap st) (log st)).
    destruct (RockerfileAstToString _) as [content|err] eqn:Hast.
    + right. right. exists content. split; [reflexivity|].
      by destruct (buildAndInspect _ _ _ _).
    + right. left. exists err. split; reflexivity.
  - exists children1,
      (mkState (set_dockerfile (set_Children children1 (dockerfile (builder st)))
                  (builder st)) (heap st) (log st)).
    split_and!; [reflexivity|reflexivity|reflexivity|].
    change (with_builder _ st)
      with (mkState (set_dockerfile (set_Children children1 (dockerfile (builder st)))
                       (builder st)) (heap st) (log st)).
    destruct (RockerfileAstToString _) as [content|err] eqn:Hast.
    + right. right. exists content. split; [reflexivity|].
      by destruct (buildAndInspect _ _ _ _).
    + right. left. exists err. split; reflexivity.
Qed.

(** X13. A materialisation that does not succeed leaves the session's image
    identity, configuration and heap as they were (the pending instructions
    may stay normalised); a panic leaves the whole state. *)
Theorem runDockerfile_failure_keeps_image st st' r :
  runDockerfile st = (st', r) ->
  r <> Returned None ->
  sameImage st st' /\ (r = Panicked -> st' = st).
Proof.
  intros Hrun Hfail.
  destruct (runDockerfile_inv st) as [Hnoop|[Hpanic|(children & st2 & Hb & Hh & Hl & Hend)]].
  - rewrite Hnoop in Hrun. by injection Hrun as <- <-.
  - rewrite Hpanic in Hrun. by injection Hrun as <- <-.
  - assert (Hst2 : sameImage st st2) by (unfold sameImage; rewrite Hb, Hh; done).
    destruct Hend as [Hmiss|[(err & Herr & _)|(content & _ & Hbuild)]].
    + rewrite Hmiss in Hrun. injection Hrun as <- <-. by split.
    + rewrite Herr in Hrun. injection Hrun as <- <-. by split.
    + rewrite Hbuild in Hrun. injection Hrun as <- <-.
      split; [|discriminate].
      destruct (buildAndInspect_inv (dockerfileName (builder st2))
                  (pathJoin (ContextDir (builder st2)) (dockerfileName (builder st2)))
                  content st2) as [(err & _ & Heq)|[_ [(err & Heq)|(id & _ & Heq)]]];
        rewrite Heq in *; cbn [fst snd] in *; try exact Hst2.
      destruct (inspectBuilt id _ _) as [st3 [err|]] eqn:Hinspect;
        cbn [fst snd] in *; [|congruence].
      apply inspectBuilt_error in Hinspect as [(Hi & Hc & Hp) _].
      destruct Hst2 as (Hi2 & Hc2 & Hp2).
      unfold sameImage. rewrite Hi, Hc, Hp. done.
Qed.


(** What [buildAndInspect] adds to the log. *)
Lemma buildAndInspect_log name path content st :
  (exists err, writeFile FS (log st) path content = Some err
               /\ buildAndInspect name path content st
                  = (emit (EWriteFile path content) st, Some err))
  \/ (writeFile FS (log st) path content = None
      /\ exists opts out,
           log (fst (buildAndInspect name path content st))
           = log st ++ EWriteFile path content
                       :: [EBuildImage opts; EDisplay out] ++ [ERemove path]
           \/ exists id,
                log (fst (buildAndInspect name path content st))
                = log st ++ EWriteFile path content
                            :: [EBuildImage opts; EDisplay out; EInspectImage id]
                               ++ [ERemove path]).
Proof.
  destruct (buildAndInspect_inv name path content st)
    as [(err & Hwrite & Heq)|[Hwrite [(err & Heq)|(id & _ & Heq)]]].
  - left. by exists err.
  - right. split; [exact Hwrite|]. eexists _, _. left. rewrite Heq.
    unfold emit. cbn [fst log]. by rewrite <- !app_assoc.
  - right. split; [exact Hwrite|]. eexists _, _. right. exists id. rewrite Heq.
    rewrite inspectBuilt_log. unfold emit. cbn [log]. by rewrite <- !app_assoc.
Qed.

(** X15. The Dockerfile that a materialisation writes is removed on every
    return: a call either reaches nothing outside, or fails in the write
    itself, or writes the file, makes one build call, displays its output,
    inspects at most one image and removes the file last. *)
Theorem runDockerfile_removes_what_it_wrote st :
  log (fst (runDockerfile st)) = log st
  \/ (exists path content err,
        writeFile FS (log st) path content = Some err
        /\ log (fst (runDockerfile st)) = log st ++ [EWriteFile path content]
        /\ snd (runDockerfile st) = Returned (Some err))
  \/ (exists path content opts out,
        writeFile FS (log st) path content = None
        /\ (log (fst (runDockerfile st))
            = log st ++ [EWriteFile path content; EBuildImage opts; EDisplay out;
                         ERemove path]
            \/ exists id,
                 log (fst (runDockerfile st))
                 = log st ++ [EWriteFile path content; EBuildImage opts; EDisplay out;
                              EInspectImage id; ERemove path])).
Proof.
  destruct (runDockerfile_inv st)
    as [Hnoop|[Hpanic|(children & st2 & _ & _ & Hl & Hend)]].
  - left. by rewrite Hnoop.
  - left. by rewrite Hpanic.
  - destruct Hend as [Hmiss|[(err & Herr & _)|(content & _ & Hbuild)]].
    + left. by rewrite Hmiss.
    + left. by rewrite Herr.
    + rewrite Hbuild. cbn [fst snd]. right.
      destruct (buildAndInspect_log (dockerfileName (builder st2))
                  (pathJoin (ContextDir (builder st2)) (dockerfileName (builder st2)))
                  content st2)
        as [(err & Hwrite & Heq)|(Hwrite & opts & out & [Hlog|(id & Hlog)])].
      * left. eexists _, content, err. rewrite Heq, <- Hl. split_and!; done.
      * right. eexists _, content, opts, out. rewrite <- Hl.
        split; [exact Hwrite|]. left. exact Hlog.
      * right. eexists _, content, opts, out. rewrite <- Hl.
        split; [exact Hwrite|]. right. exists id. exact Hlog.
Qed.

(** X16. A pending sequence that is only [FROM scratch] is sent to the engine
    with a [LABEL ROCKER_SCRATCH=1] instruction after it: that is the text
    written to the context directory. *)
Theorem runDockerfile_from_scratch_gets_a_label st first arg content :
  Children (dockerfile (builder st)) = [first] ->
  Value first = "from" ->
  Next first = Some arg ->
  Value arg = "scratch" ->
  RockerfileAstToString (set_Children [first; scratchLabel] (dockerfile (builder st)))
  = Ok content ->
  exists path rest,
    log (fst (runDockerfile st)) = log st ++ EWriteFile path content :: rest.
Proof.
  intros Hchildren Hfrom Hnext Hscratch Hast.
  unfold runDockerfile. rewrite Hchildren, Hnext.
  rewrite (decide_True (P := length [first] = 1)) by done.
  rewrite (decide_True (P := Value first = "from")) by done.
  rewrite (decide_True (P := Value arg = "scratch")) by done.
  rewrite (decide_False (P := Value first <> "from")) by (intros Hne; by apply Hne).
  change (dockerfile (builder (with_builder _ st)))
    with (set_Children [first; scratchLabel] (dockerfile (builder st))).
  rewrite Hast.
  match goal with
  | |- context [buildAndInspect ?n ?p ?c ?s] =>
      destruct (buildAndInspect_log n p c s)
        as [(err & _ & Heq)|(_ & opts & out & [Hlog|(id & Hlog)])];
      destruct (buildAndInspect n p c s) as [st3 r] eqn:Hbuild
  end; cbn [fst] in *.
  - injection Heq as -> _. by eexists _, [].
  - rewrite Hlog. by eexists _, _.
  - rewrite Hlog. by eexists _, _.
Qed.

(** X17. A pending sequence that does not start with [FROM] is built on the
    session's image: the text written starts with [FROM] that image. With
    no image yet, the call fails before it reaches anything outside. *)
Theorem runDockerfile_implicit_base st first others :
  Children (dockerfile (builder st)) = first :: others ->
  Value first <> "from" ->
  (imageID (builder st) = "" ->
   snd (runDockerfile st) = Returned (Some "Missing initial FROM instruction")
   /\ log (fst (runDockerfile st)) = log st
   /\ sameImage st (fst (runDockerfile st)))
  /\ (imageID (builder st) <> "" ->
      forall content,
        RockerfileAstToString
          (set_Children (fromNode (imageID (builder st)) :: first :: others)
             (dockerfile (builder st))) = Ok content ->
        exists path rest,
          log (fst (runDockerfile st)) = log st ++ EWriteFile path content :: rest).
Proof.
  intros Hchildren Hfrom.
  assert (Hrun : runDockerfile st
                 = let st1 := with_builder
                                (fun b => set_dockerfile
                                            (set_Children (first :: others) (dockerfile b)) b)
                                st in
                   if decide (imageID (builder st) = "")
                   then (st1, Returned (Some "Missing initial FROM instruction"))
                   else
                     let st2 := with_builder
                                  (fun b => set_dockerfile
                                              (set_Children
                                                 (fromNode (imageID b) :: first :: others)
                                                 (dockerfile b)) b) st1 in
                     match RockerfileAstToString (dockerfile (builder st2)) with
                     | Err err => (st2, Returned (Some err))
                     | Ok content =>
                         let r := buildAndInspect (dockerfileName (builder st2))
                                    (pathJoin (ContextDir (builder st2))
                                       (dockerfileName (builder st2))) content st2 in
                         (fst r, Returned (snd r))
                     end).
  { unfold runDockerfile. rewrite Hchildren.
    assert (Hhack : (if decide (length (first :: others) = 1) then
                       if decide (Value first = "from") then
                         match Next first with
                         | None => None
                         | Some arg =>
                             if decide (Value arg = "scratch")
                             then Some ((first :: others) ++ [scratchLabel])
                             else Some (first :: others)
                         end
                       else Some (first :: others)
                     else Some (first :: others)) = Some (first :: others)).
    { destruct (decide (length (first :: others) = 1)); [|done].
      by rewrite decide_False. }
    rewrite Hhack. rewrite (decide_True (P := Value first <> "from")) by done.
    cbv zeta. destruct (decide (imageID (builder st) = "")); [done|].
    destruct (RockerfileAstToString _); [|done].
    by destruct (buildAndInspect _ _ _ _). }
  rewrite Hrun. cbv zeta. split.
  - intros Hnone. rewrite decide_True by done. split_and!; done.
  - intros Hsome content Hast. rewrite decide_False by done.
    change (dockerfile (builder (with_builder _ (with_builder _ st))))
      with (set_Children (fromNode (imageID (builder st)) :: first :: others)
              (dockerfile (builder st))).
    rewrite Hast. cbn [fst].
    match goal with
    | |- context [buildAndInspect ?n ?p ?c ?s] =>
        destruct (buildAndInspect_log n p c s)
          as [(err & _ & Heq)|(_ & opts & out & [Hlog|(id & Hlog)])]
    end.
    + rewrite Heq. by eexists _, [].
    + rewrite Hlog. by eexists _, _.
    + rewrite Hlog. by eexists _, _.
Qed.

(** ** Further properties of the cache prober *)



(** X19. With caching enabled and the session not busted, a parent image
    without children is a miss after a single call to the engine: the
    session is marked cache-busted and keeps its image identity. *)
Theorem probeCache_without_candidates sched st images :
  UtilizeCache (builder st) = true ->
  cacheBusted (builder st) = false ->
  ListImages Docker (log st) = Ok images ->
  (forall img, img ∈ images -> docker.ParentID img <> imageID (builder st)) ->
  probeCache sched st
  = (with_builder (set_cacheBusted true) (emit EListImages st), (false, None)).
Proof.
  intros Hon Hunset Hlist Hnone. unfold probeCache, imageGetCached.
  rewrite Hon, Hunset, Hlist. simpl.
  assert (Hfilter : filter (fun img => docker.ParentID img = imageID (builder st)) images
                    = []).
  { clear Hlist. induction images as [|img images IH]; [done|].
    rewrite filter_cons_False by apply Hnone, list_elem_of_here.
    apply IH. intros img' Hin. by apply Hnone, list_elem_of_further. }
  rewrite Hfilter. done.
Qed.

(** X20. The images received in two orders: the prober has a hit in both or in
    neither, and the two hits have the same creation time. The order shows
    only among matching candidates created at the same instant. *)
Theorem prober_choice_up_to_ties config arrivals1 arrivals2 imgs1 imgs2 :
  resp <$> arrivals1 = RespImage <$> imgs1 ->
  resp <$> arrivals2 = RespImage <$> imgs2 ->
  inTime 0 arrivals1 = true ->
  inTime 0 arrivals2 = true ->
  imgs1 ≡ₚ imgs2 ->
  imgs1 <> [] ->
  match fst (collect config (length imgs1) arrivals1 0 None 0),
        fst (collect config (length imgs2) arrivals2 0 None 0) with
  | Ok (Some m1), Ok (Some m2) =>
      docker.Created m1 = docker.Created m2
      /\ matching config m1 = true /\ matching config m2 = true
  | Ok None, Ok None => forall image, image ∈ imgs1 -> matching config image = false
  | _, _ => False
  end.
Proof.
  intros Hresp1 Hresp2 Htime1 Htime2 Hperm Hne1.
  assert (Hne2 : imgs2 <> []).
  { intros ->. apply Permutation_nil_r in Hperm. done. }
  rewrite (collect_all_images config imgs1 arrivals1 0 None 0 (length imgs1)
             Hresp1 Htime1 Hne1 eq_refl).
  rewrite (collect_all_images config imgs2 arrivals2 0 None 0 (length imgs2)
             Hresp2 Htime2 Hne2 eq_refl).
  pose proof (pickStep_picked config imgs1) as Hp1.
  pose proof (pickStep_picked config imgs2) as Hp2.
  assert (Hlatest : forall imgs m,
            picked config imgs (Some m) ->
            m ∈ imgs /\ matching config m = true
            /\ forall image, image ∈ imgs -> matching config image = true ->
                             (docker.Created image <= docker.Created m)%Z).
  { intros imgs m (before & after & -> & Hm & Hbefore & Hafter). split_and!.
    - apply elem_of_app. right. apply list_elem_of_here.
    - exact Hm.
    - intros image Hin Hmatch. apply elem_of_app in Hin as [Hin|Hin].
      + specialize (Hbefore image Hin Hmatch). lia.
      + apply elem_of_cons in Hin as [->|Hin]; [lia|by apply Hafter]. }
  destruct (foldl (pickStep config) None imgs1) as [m1|];
    destruct (foldl (pickStep config) None imgs2) as [m2|].
  - destruct (Hlatest _ _ Hp1) as (Hin1 & Hm1 & Hmax1).
    destruct (Hlatest _ _ Hp2) as (Hin2 & Hm2 & Hmax2).
    split_and!; [|exact Hm1|exact Hm2].
    assert (docker.Created m2 <= docker.Created m1)%Z
      by (apply Hmax1; [by rewrite Hperm|exact Hm2]).
    assert (docker.Created m1 <= docker.Created m2)%Z
      by (apply Hmax2; [by rewrite <- Hperm|exact Hm1]).
    lia.
  - destruct (Hlatest _ _ Hp1) as (Hin1 & Hm1 & _). simpl in Hp2.
    rewrite (Hp2 m1) in Hm1 by (by rewrite <- Hperm). discriminate.
  - destruct (Hlatest _ _ Hp2) as (Hin2 & Hm2 & _). simpl in Hp1.
    rewrite (Hp1 m2) in Hm2 by (by rewrite Hperm). discriminate.
  - exact Hp1.
Qed.

(** ** Further properties of ensureImage and pushImage *)

(** X22. ensureImage pulls exactly when the inspection answers [no such image]:
    on any other answer it makes the one inspect call and returns what the
    inspection returned, [nil] for an image that is there. It never changes
    the builder or the heap. *)
Theorem ensureImage_pulls_only_a_missing_image imageName purpose st :
  builder (fst (ensureImage imageName purpose st)) = builder st
  /\ heap (fst (ensureImage imageName purpose st)) = heap st
  /\ ((exists opts auth, EPullImage opts auth
                         ∈ drop (length (log st)) (log (fst (ensureImage imageName purpose st))))
      <-> InspectImage Docker (log st) imageName = Err "no such image")
  /\ (InspectImage Docker (log st) imageName <> Err "no such image" ->
      log (fst (ensureImage imageName purpose st)) = log st ++ [EInspectImage imageName]
      /\ snd (ensureImage imageName purpose st)
         = match InspectImage Docker (log st) imageName with
           | Ok _ => None
           | Err err => Some err
           end).
Proof.
  assert (Hsingle : drop (length (log st)) (log st ++ [EInspectImage imageName])
                    = [EInspectImage imageName])
    by by rewrite drop_app_length.
  unfold ensureImage.
  destruct (InspectImage Docker (log st) imageName) as [image|err] eqn:Hinspect.
  - cbn [fst snd]. unfold emit. cbn [builder heap log]. split_and!; try done.
    rewrite Hsingle. split; [|discriminate].
    intros (opts & auth & Hin). apply list_elem_of_singleton in Hin. discriminate.
  - destruct (decide (err = "no such image")) as [->|Hother].
    + destruct (PullImage Docker _ _ _) as [out pullErr].
      destruct (DisplayJSONMessagesStream out) as [err|]; [|destruct pullErr as [err|]];
        cbn [fst snd]; unfold emit; cbn [builder heap log];
        (split_and!; [done|done| |intros Hne; by destruct Hne]);
        (split; [done|intros _]);
        eexists _, _; rewrite <- !app_assoc, drop_app_length;
        apply list_elem_of_further, list_elem_of_further, list_elem_of_here.
    + cbn [fst snd]. unfold emit. cbn [builder heap log]. split_and!; try done.
      rewrite Hsingle. split.
      * intros (opts & auth & Hin). apply list_elem_of_singleton in Hin. discriminate.
      * intros [= Heq]. done.
Qed.

(** X23. pushImage makes one push call, for the name, tag and registry of the
    image, and displays its output; it returns [nil] exactly when both the
    display and the push succeed, the error of the display coming first;
    it never changes the builder or the heap. *)
Theorem pushImage_result image st :
  let opts := mkPushImageOptions (NameWithRegistry image) (GetTag image) (Registry image) in
  let answer := PushImage Docker (log st) opts (Auth (builder st)) in
  builder (fst (pushImage image st)) = builder st
  /\ heap (fst (pushImage image st)) = heap st
  /\ log (fst (pushImage image st))
     = log st ++ [EPushImage opts (Auth (builder st)); EDisplay (fst answer)]
  /\ (snd (pushImage image st) = None
      <-> DisplayJSONMessagesStream (fst answer) = None /\ snd answer = None)
  /\ (forall err, DisplayJSONMessagesStream (fst answer) = Some err ->
        snd (pushImage image st)
        = Some ("Failed to process json stream for image: " +:+ imageString image
                +:+ ", error: " +:+ err)).
Proof.
  intros opts answer. unfold pushImage. fold opts. subst answer.
  destruct (PushImage Docker (log st) opts (Auth (builder st))) as [out pushErr].
  cbn [fst snd].
  destruct (DisplayJSONMessagesStream out) as [err|]; [|destruct pushErr as [err|]];
    cbn [fst snd]; unfold emit; cbn [builder heap log]; rewrite <- !app_assoc;
    split_and!; try done.
  - split; [discriminate|]. by intros [? _].
  - by intros err' [= <-].
  - split; [discriminate|]. by intros [_ ?].
Qed.

(** ** Further properties of makeExportsContainer *)

(** X24. A failure of the container creation is not remembered: the builder is
    as before, the export container is still unset, and the next call
    contacts the engine again. *)
Theorem makeExportsContainer_failure_is_not_memoized st st1 err :
  makeExportsContainer st = (st1, Err err) ->
  builder st1 = builder st
  /\ exportsContainerID (builder st1) = ""
  /\ ensureCalls (log st1) = S (ensureCalls (log st))
  /\ ensureCalls (log (fst (makeExportsContainer st1))) = S (ensureCalls (log st1)).
Proof.
  intros Hcall.
  assert (Hunset : forall s, exportsContainerID (builder s) = "" ->
                             ensureCalls (log (fst (makeExportsContainer s)))
                             = S (ensureCalls (log s))).
  { intros s Hs. unfold makeExportsContainer.
    rewrite decide_False by (intros Hne; by apply Hne).
    destruct (ensureContainer _ _ _ _); cbn [fst]; unfold with_builder, emit;
      cbn [log]; rewrite ensureCalls_snoc; simpl; lia. }
  unfold makeExportsContainer in Hcall.
  destruct (decide (exportsContainerID (builder st) <> "")) as [Hset|Hset];
    [discriminate|].
  assert (Hid : exportsContainerID (builder st) = "")
    by (destruct (decide (exportsContainerID (builder st) = "")); [done|by destruct Hset]).
  destruct (ensureContainer _ _ _ _) as [container|err0]; [discriminate|].
  injection Hcall as <- _.
  assert (Hb : builder (emit (EEnsureContainer (exportsContainerName (builder st))
                               (exportsConfig (builder st)) "exports") st) = builder st)
    by reflexivity.
  split_and!; [exact Hb|by rewrite Hb| |apply Hunset; by rewrite Hb].
  unfold emit. cbn [log]. rewrite ensureCalls_snoc. simpl. lia.
Qed.

(** X25. The container that makeExportsContainer asks for, when none is set: it
    is named by exportsContainerName, runs the rsync image, declares the
    two volumes and no other, and is labelled with the Rockerfile and the
    image identity of the session. *)
Theorem makeExportsContainer_request st :
  exportsContainerID (builder st) = "" ->
  exists config,
    log (fst (makeExportsContainer st))
    = log st ++ [EEnsureContainer (exportsContainerName (builder st)) config "exports"]
    /\ docker.dImage config = rsyncImage
    /\ (exists volumes, docker.dVolumes config = Some volumes
                        /\ forall v, v ∈ volumes <-> v = "/opt/rsync/bin" \/ v = exportsVolume)
    /\ (exists labels, docker.dLabels config = Some labels
                       /\ labels !! "Rockerfile" = Some (Rockerfile (builder st))
                       /\ labels !! "ImageId" = Some (imageID (builder st))
                       /\ forall k, is_Some (labels !! k) -> k = "Rockerfile" \/ k = "ImageId").
Proof.
  intros Hunset. exists (exportsConfig (builder st)). split_and!.
  - unfold makeExportsContainer. rewrite decide_False by (intros Hne; by apply Hne).
    by destruct (ensureContainer _ _ _ _).
  - done.
  - eexists. split; [reflexivity|]. intros v.
    rewrite elem_of_union, !elem_of_singleton. done.
  - eexists. split; [reflexivity|]. split_and!.
    + rewrite lookup_insert_ne by done. apply lookup_singleton_eq.
    + apply lookup_insert_eq.
    + intros k [v Hk].
      destruct (decide (k = "ImageId")) as [->|Hne]; [by right|].
      rewrite lookup_insert_ne in Hk by done.
      destruct (decide (k = "Rockerfile")) as [->|Hne']; [by left|].
      rewrite lookup_singleton_ne in Hk by done. discriminate.
Qed.

(** ** Further properties of captureImageID *)

Lemma append_empty_inv : forall p1 p2 : string, p1 +:+ p2 = "" -> p2 = "".
Proof. intros [|c p1] p2; simpl; [done|discriminate]. Qed.

(** [findSubmatch] returns the group of the leftmost match: a match at
    some position with no match at any position before it. *)
Lemma findSubmatch_leftmost lit cls n : forall s g,
  findSubmatch lit cls n s = Some g <->
  exists pre rest,
    s = pre +:+ rest
    /\ matchHere lit cls n rest = Some g
    /\ forall p1 p2, pre = p1 +:+ p2 -> p2 <> "" ->
                     matchHere lit cls n (p2 +:+ rest) = None.
Proof.
  intros s g. split.
  - revert g. induction s as [|c s IH]; intros g; simpl.
    + destruct (matchHere lit cls n "") as [g'|] eqn:Hhere; [|discriminate].
      intros [= <-]. exists "", "". split_and!; [done|done|].
      intros p1 p2 Hpre Hne. symmetry in Hpre. by apply append_empty_inv in Hpre.
    + destruct (matchHere lit cls n (String c s)) as [g'|] eqn:Hhere.
      * intros [= <-]. exists "", (String c s). split_and!; [done|done|].
        intros p1 p2 Hpre Hne. symmetry in Hpre. by apply append_empty_inv in Hpre.
      * intros Hfind. apply IH in Hfind as (pre & rest & -> & Hmatch & Hbefore).
        exists (String c pre), rest. split_and!; [done|exact Hmatch|].
        intros [|c' p1] p2 Hpre Hne.
        -- change ("" +:+ p2) with p2 in Hpre. rewrite <- Hpre. exact Hhere.
        -- change (String c' p1 +:+ p2) with (String c' (p1 +:+ p2)) in Hpre.
           injection Hpre as _ Hpre. by apply (Hbefore p1 p2).
  - intros (pre & rest & -> & Hmatch & Hbefore).
    induction pre as [|c pre IH]; simpl.
    + destruct rest; simpl; by rewrite Hmatch.
    + assert (Hno : matchHere lit cls n (String c (pre +:+ rest)) = None)
        by (apply (Hbefore "" (String c pre)); [reflexivity|discriminate]).
      rewrite Hno.
      apply IH. intros p1 p2 -> Hne. by apply (Hbefore (String c p1) p2).
Qed.

(** X26. captureImageID takes the first identifier: the twelve characters after
    the leftmost [Successfully built ] that twelve lower-case letters or
    digits follow; a later occurrence is not looked at. *)
Theorem captureImageID_takes_the_first_match pre id post :
  String.length id = 12 ->
  stringAll isLowerAlnum id = true ->
  (forall p1 p2, pre = p1 +:+ p2 -> p2 <> "" ->
     matchHere "Successfully built " isLowerAlnum 12
       (p2 +:+ "Successfully built " +:+ id +:+ post) = None) ->
  captureImageID (pre +:+ "Successfully built " +:+ id +:+ post) = Some id.
Proof.
  intros Hlen Hall Hbefore. unfold captureImageID.
  apply findSubmatch_leftmost.
  exists pre, ("Successfully built " +:+ id +:+ post). split_and!; [done| |exact Hbefore].
  apply matchHere_spec. by exists post.
Qed.

(** ** What a session leaves alone *)

Lemma inspectBuilt_unassigned {A} (f : Builder -> A) id path st :
  unassigned f -> f (builder (fst (inspectBuilt id path st))) = f (builder st).
Proof.
  intros (Hc & Hi & Hd & _ & _). unfold inspectBuilt.
  destruct (InspectImage Docker (log st) id) as [image|err]; [|done].
  destruct (newConfig _ _) as [cfg h]. cbn [fst emit builder].
  by rewrite Hd, Hc, Hi.
Qed.

Lemma runDockerfile_unassigned {A} (f : Builder -> A) st :
  unassigned f -> f (builder (fst (runDockerfile st))) = f (builder st).
Proof.
  intros Hf.
  destruct (runDockerfile_inv st)
    as [Hnoop|[Hpanic|(children & st2 & Hb & _ & _ & Hend)]].
  - by rewrite Hnoop.
  - by rewrite Hpanic.
  - assert (Hst2 : f (builder st2) = f (builder st)).
    { destruct Hf as (_ & _ & Hd & _ & _). by rewrite Hb, Hd. }
    destruct Hend as [Hmiss|[(err & Herr & _)|(content & _ & Hbuild)]].
    + by rewrite Hmiss.
    + by rewrite Herr.
    + rewrite Hbuild. cbn [fst].
      destruct (buildAndInspect_inv (dockerfileName (builder st2))
                  (pathJoin (ContextDir (builder st2)) (dockerfileName (builder st2)))
                  content st2) as [(err & _ & Heq)|[_ [(err & Heq)|(id & _ & Heq)]]];
        rewrite Heq; try exact Hst2.
      by rewrite inspectBuilt_unassigned.
Qed.

Lemma probeCache_unassigned {A} (f : Builder -> A) sched st :
  unassigned f -> f (builder (fst (probeCache sched st))) = f (builder st).
Proof.
  intros (_ & Hi & _ & Hb & _). unfold probeCache.
  destruct (negb (UtilizeCache (builder st)) || cacheBusted (builder st)); [done|].
  destruct (imageGetCached_builder sched (imageID (builder st)) (draft st) st) as [Heq _].
  unfold draft in Heq.
  destruct (imageGetCached _ _ _ _) as [st1 [[cache|]|err]]; cbn [fst] in *;
    unfold with_builder, emit; cbn [builder]; rewrite ?Hi, ?Hb, Heq; done.
Qed.

Lemma exec_unassigned {A} (f : Builder -> A) p :
  unassigned f ->
  (forall v b, f (set_gitIgnored v b) = f b) ->
  forall st, f (builder (exec p st)) = f (builder st).
Proof.
  intros Hf Hg. pose proof Hf as (Hc & Hi & Hd & Hb & He).
  induction p as [|p IHp q IHq| | | | | |fn IH| | | | |]; intros st; simpl.
  - done.
  - by rewrite IHq, IHp.
  - unfold checkDockerignore.
    destruct (negb (fileExists FS (log st) _)); [done|].
    destruct (openFile FS _ _) as [[lines scanErr]|err]; [|done].
    destruct (foldl scanLine _ lines) as [[newLines missing] git].
    destruct scanErr as [err|]; [|case_decide]; cbn [fst];
      unfold with_builder, emit; cbn [builder]; by rewrite Hg.
  - by apply runDockerfile_unassigned.
  - unfold addLabels, allocLabels.
    destruct (docker.Labels (Config (builder st))) as [l|] eqn:Hl; simpl.
    + by rewrite Hl.
    + by rewrite Hc.
  - unfold assignCmd, with_builder. simpl. by rewrite Hc.
  - unfold assignCmd, with_builder. simpl. by rewrite Hc.
  - apply IH.
  - unfold assignConfig, with_builder. simpl. by rewrite Hc.
  - by apply probeCache_unassigned.
  - unfold ensureImage.
    destruct (InspectImage Docker (log st) imageName) as [image|err]; [done|].
    case_decide; [|done].
    destruct (PullImage Docker _ _ _) as [out pullErr].
    by destruct (DisplayJSONMessagesStream out); [|destruct pullErr].
  - unfold pushImage.
    destruct (PushImage Docker _ _ _) as [out pushErr].
    by destruct (DisplayJSONMessagesStream out); [|destruct pushErr].
  - unfold makeExportsContainer. case_decide; [done|].
    destruct (ensureContainer _ _ _ _); cbn [fst]; unfold with_builder, emit;
      cbn [builder]; by rewrite ?He.
Qed.

(** X27. No method of this file, in any sequence, changes the settings of the
    session: whether the cache is used, the mounts, the Rockerfile, the
    context directory and the credentials. *)
Theorem exec_keeps_settings p st :
  UtilizeCache (builder (exec p st)) = UtilizeCache (builder st)
  /\ mounts (builder (exec p st)) = mounts (builder st)
  /\ allMounts (builder (exec p st)) = allMounts (builder st)
  /\ Rockerfile (builder (exec p st)) = Rockerfile (builder st)
  /\ ContextDir (builder (exec p st)) = ContextDir (builder st)
  /\ Auth (builder (exec p st)) = Auth (builder st).
Proof.
  split_and!; apply exec_unassigned; try done; by split_and!.
Qed.

(** X28. Once [.git] was seen in a .dockerignore, gitIgnored stays set whatever
    the session does. *)
Theorem gitIgnored_is_sticky p : forall st,
  gitIgnored (builder st) = true -> gitIgnored (builder (exec p st)) = true.
Proof.
  assert (Hf : unassigned gitIgnored) by (by split_and!).
  pose proof Hf as (Hc & Hi & Hd & Hb & He).
  induction p as [|p IHp q IHq| | | | | |fn IH| | | | |]; intros st Hset; simpl.
  - done.
  - by apply IHq, IHp.
  - unfold checkDockerignore.
    destruct (negb (fileExists FS (log st) _)); [done|].
    destruct (openFile FS _ _) as [[lines scanErr]|err]; [|done].
    rewrite scan_fold, Hset.
    destruct scanErr as [err|]; [|case_decide]; done.
  - by rewrite runDockerfile_unassigned.
  - unfold addLabels, allocLabels.
    destruct (docker.Labels (Config (builder st))) as [l|] eqn:Hl; simpl.
    + by rewrite Hl.
    + done.
  - done.
  - done.
  - by apply IH.
  - done.
  - by rewrite probeCache_unassigned.
  - unfold ensureImage.
    destruct (InspectImage Docker (log st) imageName) as [image|err]; [done|].
    case_decide; [|done].
    destruct (PullImage Docker _ _ _) as [out pullErr].
    by destruct (DisplayJSONMessagesStream out); [|destruct pullErr].
  - unfold pushImage.
    destruct (PushImage Docker _ _ _) as [out pushErr].
    by destruct (DisplayJSONMessagesStream out); [|destruct pushErr].
  - unfold makeExportsContainer. case_decide; [done|].
    by destruct (ensureContainer _ _ _ _).
Qed.
End Internals.


(** ** The example session *)

Abbreviation exampleExec :=
  (exec exampleEngine exampleFS exampleDisplay compareCommands exampleAstToString
     exampleEnsureContainer exampleName exampleName exampleName exampleName
     "rsync" "/exports" exampleImageName examplePathJoin false).

Abbreviation exampleProbeCache := (probeCache exampleEngine compareCommands false).

Abbreviation exampleRunDockerfile :=
  (runDockerfile exampleEngine exampleFS exampleDisplay exampleAstToString
     exampleName examplePathJoin).

Abbreviation exampleMakeExportsContainer :=
  (makeExportsContainer exampleEnsureContainer exampleName "rsync" "/exports").

(** C2, on the code: the draft refers to a label map with one entry, the
    function handed to [temporaryConfig] adds a label with [addLabels], and
    the closure is run. The struct copy shares the map object with the
    draft, so the label is still there after the closure has run: the draft
    is not the prior one. *)
Theorem temporaryConfig_shares_the_label_map :
  let '(st1, restore) := temporaryConfig (addLabels {[ "tmp" := "x" ]}) exampleState in
  docker.dLabels (draft exampleState) = Some {[ "a" := "1" ]}
  /\ docker.dLabels (draft st1) = Some (<[ "tmp" := "x" ]> {[ "a" := "1" ]})
  /\ docker.dLabels (draft (restore st1)) = Some (<[ "tmp" := "x" ]> {[ "a" := "1" ]})
  /\ draft (restore st1) <> draft exampleState.
Proof.
  simpl. split_and!; try (vm_compute; reflexivity).
  vm_compute. intros [=].
Qed.

(** The build output holds no run of twelve hexadecimal digits, and
    [runDockerfile] does not end with the error of the capture: it takes
    [zzzzzzzzzzzz] for the identifier, inspects it and succeeds. *)
Lemma capture_takes_a_token_that_is_not_hexadecimal :
  BuildImage exampleEngine [] (mkBuildImageOptions "" "" false "") = (exampleOutput, None)
  /\ hasHexToken exampleOutput = false
  /\ snd (exampleRunDockerfile exampleState) = Returned None
  /\ imageID (builder (fst (exampleRunDockerfile exampleState))) = "zzzzzzzzzzzz"
  /\ EInspectImage "zzzzzzzzzzzz" ∈ log (fst (exampleRunDockerfile exampleState)).
Proof.
  split_and!; [reflexivity|by vm_compute|by vm_compute|by vm_compute|].
  apply list_elem_of_In. vm_compute. tauto.
Qed.

(** The engine answers [no such image] to the inspection and the pull
    succeeds: [ensureImage] returns no error at all. *)
Lemma ensureImage_pulls_the_missing_image :
  InspectImage exampleEngine (log exampleState) "busybox" = Err "no such image"
  /\ snd (ensureImage exampleEngine exampleDisplay exampleImageName
            "busybox" "build" exampleState) = None.
Proof. split; reflexivity. Qed.

(** ** The theorems at the example session *)



Lemma cacheBusted_is_sticky_witness :
  cacheBusted (builder bustedState) = true
  /\ cacheBusted (builder (exampleExec (Seq RunDockerfile (ProbeCache [])) bustedState)) = true
  /\ exampleProbeCache [("aaaaaaaaaaaa", 1%Z)]
       (exampleExec (Seq RunDockerfile (ProbeCache [])) bustedState)
     = (exampleExec (Seq RunDockerfile (ProbeCache [])) bustedState, (false, None)).
Proof.
  assert (Hbusted : cacheBusted (builder bustedState) = true) by reflexivity.
  split; [exact Hbusted|].
  pose proof (cacheBusted_is_sticky exampleEngine exampleFS exampleDisplay
                compareCommands exampleAstToString exampleEnsureContainer
                exampleName exampleName exampleName exampleName "rsync" "/exports"
                exampleImageName examplePathJoin false
                (Seq RunDockerfile (ProbeCache [])) [("aaaaaaaaaaaa", 1%Z)]
                bustedState Hbusted) as (Hflag & Hprobe & _).
  split; [exact Hflag|exact Hprobe].
Defined.

Lemma probeCache_error_leaves_session_witness :
  exampleProbeCache [("aaaaaaaaaaaa", 11%Z)] exampleState
  = (fst (exampleProbeCache [("aaaaaaaaaaaa", 11%Z)] exampleState),
     (false, Some errTimeout))
  /\ builder (fst (exampleProbeCache [("aaaaaaaaaaaa", 11%Z)] exampleState))
     = builder exampleState
  /\ cacheBusted (builder (fst (exampleProbeCache [("aaaaaaaaaaaa", 11%Z)] exampleState)))
     = false.
Proof.
  assert (Herr : exampleProbeCache [("aaaaaaaaaaaa", 11%Z)] exampleState
                 = (fst (exampleProbeCache [("aaaaaaaaaaaa", 11%Z)] exampleState),
                    (false, Some errTimeout))) by reflexivity.
  split; [exact Herr|].
  pose proof (probeCache_error_leaves_session exampleEngine compareCommands false
                [("aaaaaaaaaaaa", 11%Z)] exampleState _ false errTimeout Herr)
    as (_ & Hbuilder & _ & Hflag & _).
  split; [exact Hbuilder|exact Hflag].
Defined.

Lemma makeExportsContainer_memoized_witness :
  exampleMakeExportsContainer exampleState
  = (fst (exampleMakeExportsContainer exampleState), Ok "c0ffee")
  /\ "c0ffee" <> ""
  /\ exampleMakeExportsContainer
       (exampleExec (Seq RunDockerfile MakeExportsContainer)
          (fst (exampleMakeExportsContainer exampleState)))
     = (exampleExec (Seq RunDockerfile MakeExportsContainer)
          (fst (exampleMakeExportsContainer exampleState)), Ok "c0ffee")
  /\ (ensureCalls (log (fst (exampleMakeExportsContainer exampleState)))
      <= S (ensureCalls (log exampleState)))%nat.
Proof.
  assert (Hcall : exampleMakeExportsContainer exampleState
                  = (fst (exampleMakeExportsContainer exampleState), Ok "c0ffee"))
    by reflexivity.
  assert (Hid : "c0ffee" <> "") by discriminate.
  split; [exact Hcall|]. split; [exact Hid|].
  pose proof (makeExportsContainer_memoized exampleEngine exampleFS exampleDisplay
                compareCommands exampleAstToString exampleEnsureContainer
                exampleName exampleName exampleName exampleName "rsync" "/exports"
                exampleImageName examplePathJoin false
                (Seq RunDockerfile MakeExportsContainer)
                exampleState _ "c0ffee" Hcall Hid) as (Hcount & _ & Hlater & _).
  split; [exact Hlater|exact Hcount].
Defined.

Lemma runDockerfile_empty_is_noop_witness :
  Children (dockerfile (builder idleState)) = []
  /\ exampleRunDockerfile idleState = (idleState, Returned None).
Proof.
  assert (Hempty : Children (dockerfile (builder idleState)) = []) by reflexivity.
  split; [exact Hempty|].
  exact (runDockerfile_empty_is_noop exampleEngine exampleFS exampleDisplay
           exampleAstToString exampleName examplePathJoin idleState Hempty).
Defined.

Lemma image_id_capture_witness :
  writeFile exampleFS (log exampleState) "/ctx/Dockerfile" "from base" = None
  /\ exampleDisplay exampleOutput = None
  /\ (is_Some (captureImageID exampleOutput) <->
      exists pre imageID post,
        exampleOutput = pre +:+ "Successfully built " +:+ imageID +:+ post
        /\ String.length imageID = 12 /\ stringAll isLowerAlnum imageID = true).
Proof.
  assert (Hwrite : writeFile exampleFS (log exampleState) "/ctx/Dockerfile" "from base"
                   = None) by reflexivity.
  assert (Hdisplay : exampleDisplay exampleOutput = None) by reflexivity.
  split; [exact Hwrite|]. split; [exact Hdisplay|].
  exact (proj1 (proj2 (image_id_capture exampleEngine exampleFS exampleDisplay
                         "Dockerfile" "/ctx/Dockerfile" "from base" exampleState
                         exampleOutput Hwrite eq_refl Hdisplay))).
Defined.

Lemma no_such_image_is_named_by_runDockerfile_witness :
  InspectImage exampleEngine (log exampleState) "ffffffffffff" = Err "no such image"
  /\ InspectImage exampleEngine (log exampleState) "busybox" = Err "no such image"
  /\ snd (inspectBuilt exampleEngine "ffffffffffff" "/ctx/Dockerfile" exampleState)
     = Some ("No such image: " +:+ "ffffffffffff").
Proof.
  assert (Hbuilt : InspectImage exampleEngine (log exampleState) "ffffffffffff"
                   = Err "no such image") by reflexivity.
  assert (Hensure : InspectImage exampleEngine (log exampleState) "busybox"
                    = Err "no such image") by reflexivity.
  split; [exact Hbuilt|]. split; [exact Hensure|].
  exact (proj1 (no_such_image_is_named_by_runDockerfile exampleEngine exampleDisplay
                  exampleImageName "ffffffffffff" "/ctx/Dockerfile" exampleState
                  "busybox" "build" exampleState Hbuilt Hensure)).
Defined.

(** The three candidates of the example answer 9, 18 and 27 seconds after
    the start of the fan-out: the probe is a hit, on the later of the two
    matching candidates. *)
Lemma probe_hits_after_the_ceiling :
  let sched := [("aaaaaaaaaaaa", 9%Z); ("bbbbbbbbbbbb", 18%Z); ("cccccccccccc", 27%Z)] in
  snd (exampleProbeCache sched exampleState) = (true, None)
  /\ imageID (builder (fst (exampleProbeCache sched exampleState))) = "bbbbbbbbbbbb"
  /\ snd (collect compareCommands false exampleConfig 3
            [mkArrival 9 (RespImage imageA); mkArrival 18 (RespImage imageB);
             mkArrival 27 (RespImage imageC)] 0 None 0) = 27%Z.
Proof. split_and!; by vm_compute. Qed.

(** ** The further properties at the example session *)

Lemma exampleState_wellFormed : wellFormed exampleState.
Proof.
  split; intros l Hl; [|discriminate].
  injection Hl as <-. exact (le_n 1).
Defined.

Lemma addLabels_merges_witness :
  wellFormed exampleState
  /\ (docker.dLabels (draft (addLabels twoLabels exampleState)) ≫= (.!! "a"))
     = match twoLabels !! "a" with
       | Some v => Some v
       | None => docker.dLabels (draft exampleState) ≫= (.!! "a")
       end.
Proof.
  split; [exact exampleState_wellFormed|].
  exact (proj1 (addLabels_merges twoLabels exampleState "a" exampleState_wellFormed)).
Defined.

Lemma addLabels_twice_witness :
  wellFormed exampleState
  /\ draft (addLabels twoLabels (addLabels {[ "tmp" := "x" ]} exampleState))
     = draft (addLabels (twoLabels ∪ {[ "tmp" := "x" ]}) exampleState).
Proof.
  split; [exact exampleState_wellFormed|].
  exact (addLabels_twice {[ "tmp" := "x" ]} twoLabels exampleState exampleState_wellFormed).
Defined.

Lemma storeAll_any_order_witness :
  reverse (map_to_list twoLabels) ≡ₚ map_to_list twoLabels
  /\ foldr (fun kv m => <[kv.1 := kv.2]> m) ({[ "a" := "0" ]} : gmap string string)
       (reverse (map_to_list twoLabels))
     = storeAll twoLabels {[ "a" := "0" ]}.
Proof.
  assert (Hperm : reverse (map_to_list twoLabels) ≡ₚ map_to_list twoLabels)
    by apply reverse_Permutation.
  split; [exact Hperm|].
  exact (storeAll_any_order twoLabels {[ "a" := "0" ]} _ Hperm).
Defined.



Lemma collect_finish_bound_witness :
  (0 < 3)%nat
  /\ (0 <= snd (collect compareCommands false exampleConfig 3 exampleArrivals 0 None 0)
      <= 0 + timeout * Z.of_nat (3 - 0))%Z.
Proof.
  assert (Hlt : (0 < 3)%nat) by lia.
  split; [exact Hlt|].
  exact (collect_finish_bound compareCommands false exampleConfig 3 exampleArrivals
           0 None 0 Hlt).
Defined.

Lemma prober_choice_up_to_ties_witness :
  exampleImages ≡ₚ swappedImages
  /\ match fst (collect compareCommands false exampleConfig (length exampleImages)
                  exampleArrivals 0 None 0),
           fst (collect compareCommands false exampleConfig (length swappedImages)
                  swappedArrivals 0 None 0) with
     | Ok (Some m1), Ok (Some m2) =>
         docker.Created m1 = docker.Created m2
         /\ matching compareCommands exampleConfig m1 = true
         /\ matching compareCommands exampleConfig m2 = true
     | Ok None, Ok None =>
         forall image, image ∈ exampleImages ->
                       matching compareCommands exampleConfig image = false
     | _, _ => False
     end.
Proof.
  assert (Hperm : exampleImages ≡ₚ swappedImages) by apply perm_swap.
  split; [exact Hperm|].
  exact (prober_choice_up_to_ties compareCommands false exampleConfig
           exampleArrivals swappedArrivals exampleImages swappedImages
           eq_refl eq_refl eq_refl eq_refl Hperm ltac:(discriminate)).
Defined.

Lemma probeCache_without_candidates_witness :
  UtilizeCache (builder leafState) = true
  /\ cacheBusted (builder leafState) = false
  /\ exampleProbeCache [] leafState
     = (with_builder (set_cacheBusted true) (emit EListImages leafState), (false, None)).
Proof.
  assert (Hon : UtilizeCache (builder leafState) = true) by reflexivity.
  assert (Hunset : cacheBusted (builder leafState) = false) by reflexivity.
  split; [exact Hon|]. split; [exact Hunset|].
  refine (probeCache_without_candidates exampleEngine compareCommands false []
            leafState _ Hon Hunset eq_refl _).
  intros img Hin.
  repeat (apply elem_of_cons in Hin as [->|Hin]; [discriminate|]).
  inversion Hin.
Defined.

Lemma runDockerfile_failure_keeps_image_witness :
  exampleRunDockerfile noImageState
  = (fst (exampleRunDockerfile noImageState),
     Returned (Some "Missing initial FROM instruction"))
  /\ sameImage noImageState (fst (exampleRunDockerfile noImageState)).
Proof.
  assert (Hrun : exampleRunDockerfile noImageState
                 = (fst (exampleRunDockerfile noImageState),
                    Returned (Some "Missing initial FROM instruction")))
    by reflexivity.
  split; [exact Hrun|].
  exact (proj1 (runDockerfile_failure_keeps_image exampleEngine exampleFS exampleDisplay
                  exampleAstToString exampleName examplePathJoin noImageState _ _
                  Hrun ltac:(discriminate))).
Defined.


Lemma runDockerfile_from_scratch_gets_a_label_witness :
  Children (dockerfile (builder scratchState)) = [scratchFrom]
  /\ exists path rest,
       log (fst (exampleRunDockerfile scratchState))
       = log scratchState
         ++ EWriteFile path ("from scratch" +:+ nl +:+ "label ROCKER_SCRATCH=1") :: rest.
Proof.
  assert (Hchildren : Children (dockerfile (builder scratchState)) = [scratchFrom])
    by reflexivity.
  split; [exact Hchildren|].
  exact (runDockerfile_from_scratch_gets_a_label exampleEngine exampleFS exampleDisplay
           exampleAstToString exampleName examplePathJoin scratchState scratchFrom
           (mkNode "scratch" None []) _ Hchildren eq_refl eq_refl eq_refl eq_refl).
Defined.

Lemma runDockerfile_implicit_base_witness :
  Children (dockerfile (builder exampleState))
  = [mkNode "run" (Some (mkNode "make" None [])) []]
  /\ Value (mkNode "run" (Some (mkNode "make" None [])) []) <> "from"
  /\ exists path rest,
       log (fst (exampleRunDockerfile exampleState))
       = log exampleState ++ EWriteFile path ("from base" +:+ nl +:+ "run make") :: rest.
Proof.
  assert (Hchildren : Children (dockerfile (builder exampleState))
                      = [mkNode "run" (Some (mkNode "make" None [])) []]) by reflexivity.
  assert (Hfrom : Value (mkNode "run" (Some (mkNode "make" None [])) []) <> "from")
    by discriminate.
  split; [exact Hchildren|]. split; [exact Hfrom|].
  exact (proj2 (runDockerfile_implicit_base exampleEngine exampleFS exampleDisplay
                  exampleAstToString exampleName examplePathJoin exampleState _ _
                  Hchildren Hfrom) ltac:(discriminate) _ eq_refl).
Defined.

Lemma exampleRequiredLines_NoDup :
  NoDup (requiredLines exampleName exampleName exampleBuilder).
Proof.
  apply NoDup_cons. split.
  - intros Hin.
    repeat (apply elem_of_cons in Hin as [Heq|Hin]; [discriminate|]). inversion Hin.
  - apply NoDup_cons. split.
    + intros Hin.
      repeat (apply elem_of_cons in Hin as [Heq|Hin]; [discriminate|]). inversion Hin.
    + apply NoDup_singleton.
Defined.

Lemma checkDockerignore_complete_file_is_left_alone_witness :
  fileExists completeFS (log exampleState)
    (dockerignoreFile examplePathJoin (builder exampleState)) = true
  /\ NoDup (requiredLines exampleName exampleName (builder exampleState))
  /\ snd (checkDockerignore completeFS exampleName exampleName examplePathJoin exampleState)
     = None
  /\ log (fst (checkDockerignore completeFS exampleName exampleName examplePathJoin
                 exampleState))
     = log exampleState ++ [EStat "/ctx/.dockerignore"; EOpen "/ctx/.dockerignore"].
Proof.
  assert (Hexists : fileExists completeFS (log exampleState)
                      (dockerignoreFile examplePathJoin (builder exampleState)) = true)
    by reflexivity.
  assert (Hall : forall x, x ∈ requiredLines exampleName exampleName (builder exampleState)
                           -> x ∈ completeLines).
  { intros x Hin.
    repeat (apply elem_of_cons in Hin as [->|Hin];
            [apply list_elem_of_In; vm_compute; tauto|]).
    inversion Hin. }
  split; [exact Hexists|]. split; [exact exampleRequiredLines_NoDup|].
  pose proof (checkDockerignore_complete_file_is_left_alone completeFS exampleName
                exampleName examplePathJoin exampleState completeLines
                Hexists eq_refl exampleRequiredLines_NoDup Hall) as (Hnil & Hlog & _).
  split; [exact Hnil|exact Hlog].
Defined.

Lemma checkDockerignore_appends_the_missing_lines_witness :
  fileExists partialFS (log exampleState)
    (dockerignoreFile examplePathJoin (builder exampleState)) = true
  /\ (".dockerignore" ∈ requiredLines exampleName exampleName (builder exampleState))
  /\ (".dockerignore" ∉ [".git"; "node_modules"])
  /\ exists missing announce,
       log (fst (checkDockerignore partialFS exampleName exampleName examplePathJoin
                   exampleState))
       = log exampleState
         ++ [EStat (dockerignoreFile examplePathJoin (builder exampleState));
             EOpen (dockerignoreFile examplePathJoin (builder exampleState));
             EOutput announce;
             EWriteFile (dockerignoreFile examplePathJoin (builder exampleState))
               (join nl ([".git"; "node_modules"] ++ missing) +:+ nl)].
Proof.
  assert (Hexists : fileExists partialFS (log exampleState)
                      (dockerignoreFile examplePathJoin (builder exampleState)) = true)
    by reflexivity.
  assert (Hreq : ".dockerignore"
                 ∈ requiredLines exampleName exampleName (builder exampleState))
    by apply list_elem_of_here.
  assert (Hnot : ".dockerignore" ∉ [".git"; "node_modules"]).
  { intros Hin.
    repeat (apply elem_of_cons in Hin as [Heq|Hin]; [discriminate|]). inversion Hin. }
  split; [exact Hexists|]. split; [exact Hreq|]. split; [exact Hnot|].
  destruct (checkDockerignore_appends_the_missing_lines partialFS exampleName exampleName
              examplePathJoin exampleState [".git"; "node_modules"] ".dockerignore"
              Hexists eq_refl Hreq Hnot) as (missing & announce & Hlog & _).
  exists missing, announce. exact Hlog.
Defined.

Lemma makeExportsContainer_failure_is_not_memoized_witness :
  makeExportsContainer failingEnsureContainer exampleName "rsync" "/exports" exampleState
  = (fst (makeExportsContainer failingEnsureContainer exampleName "rsync" "/exports"
            exampleState), Err "cannot create")
  /\ exportsContainerID
       (builder (fst (makeExportsContainer failingEnsureContainer exampleName "rsync"
                        "/exports" exampleState))) = "".
Proof.
  assert (Hcall : makeExportsContainer failingEnsureContainer exampleName "rsync"
                    "/exports" exampleState
                  = (fst (makeExportsContainer failingEnsureContainer exampleName "rsync"
                            "/exports" exampleState), Err "cannot create"))
    by reflexivity.
  split; [exact Hcall|].
  exact (proj1 (proj2 (makeExportsContainer_failure_is_not_memoized failingEnsureContainer
                         exampleName "rsync" "/exports" exampleState _ _ Hcall))).
Defined.

Lemma makeExportsContainer_request_witness :
  exportsContainerID (builder exampleState) = ""
  /\ exists config,
       log (fst (exampleMakeExportsContainer exampleState))
       = log exampleState
         ++ [EEnsureContainer (exampleName (builder exampleState)) config "exports"]
       /\ docker.dImage config = "rsync".
Proof.
  assert (Hunset : exportsContainerID (builder exampleState) = "") by reflexivity.
  split; [exact Hunset|].
  destruct (makeExportsContainer_request exampleEnsureContainer exampleName "rsync"
              "/exports" exampleState Hunset) as (config & Hlog & Himage & _).
  exists config. split; [exact Hlog|exact Himage].
Defined.

Lemma captureImageID_takes_the_first_match_witness :
  String.length "0123456789ab" = 12
  /\ stringAll isLowerAlnum "0123456789ab" = true
  /\ captureImageID ("> " +:+ "Successfully built " +:+ "0123456789ab"
                     +:+ " Successfully built ba9876543210")
     = Some "0123456789ab".
Proof.
  assert (Hlen : String.length "0123456789ab" = 12) by reflexivity.
  assert (Hall : stringAll isLowerAlnum "0123456789ab" = true) by reflexivity.
  split; [exact Hlen|]. split; [exact Hall|].
  refine (captureImageID_takes_the_first_match "> " "0123456789ab"
            " Successfully built ba9876543210" Hlen Hall _).
  intros p1 p2 Hpre Hne.
  destruct p1 as [|c1 [|c2 [|c3 p1]]].
  - change ("" +:+ p2) with p2 in Hpre. subst p2. reflexivity.
  - change (String c1 "" +:+ p2) with (String c1 p2) in Hpre.
    injection Hpre as _ <-. reflexivity.
  - change (String c1 (String c2 "") +:+ p2) with (String c1 (String c2 p2)) in Hpre.
    injection Hpre as _ _ <-. by destruct Hne.
  - change (String c1 (String c2 (String c3 p1)) +:+ p2)
      with (String c1 (String c2 (String c3 (p1 +:+ p2)))) in Hpre.
    discriminate.
Defined.

Lemma gitIgnored_is_sticky_witness :
  gitIgnored (builder gitState) = true
  /\ gitIgnored
       (builder (exampleExec (Seq CheckDockerignore (Seq RunDockerfile (ProbeCache [])))
                   gitState)) = true.
Proof.
  assert (Hset : gitIgnored (builder gitState) = true) by reflexivity.
  split; [exact Hset|].
  exact (gitIgnored_is_sticky exampleEngine exampleFS exampleDisplay compareCommands
           exampleAstToString exampleEnsureContainer exampleName exampleName exampleName
           exampleName "rsync" "/exports" exampleImageName examplePathJoin false
           (Seq CheckDockerignore (Seq RunDockerfile (ProbeCache []))) gitState Hset).
Defined.
